(** * starsense backend: a shallow embedding and its checked properties

    The development follows the four modules of [src/backend]:
    [provider.py] (chat and embedding back ends), [db.py] (the repository
    store), [ingest.py] (the starred-repository walk) and [retrieval.py]
    (context rendering and answer generation), and the handlers of
    [server.py] that call them.

    Conventions of the embedding.
    - Python text is a Rocq [string], that is a sequence of bytes; the
      whitespace removed by [str.strip] is the ASCII whitespace of
      [str.isspace].
    - A Python call that may raise returns a [result]; the exception keeps its
      class and its [str(e)] text.
    - JSON payloads are values of [pyval].
    - The outside world (HTTP replies, the chat back ends, datastore faults and
      the similarity operator) is a record of reply functions, [world].
    - The progress sink of a run is its trace: awaiting [send_status] records
      the event, next to the README fetches and store writes that complete.
    - The [while True] loop of the ingestion takes fuel, one unit per page
      request; the run lemmas give the fuel that suffices.
    - Calls to [logging] are left out, except the warnings of
      [format_repo_context], which the function returns next to its text. *)

From Stdlib Require Import String Ascii List ZArith Lia Bool.
From Stdlib Require Import SpecFloat DecimalString DecimalPos DecimalZ.
Import ListNotations.

Set Warnings "-register-all".

Local Open Scope string_scope.
Local Open Scope Z_scope.

(** ** Exceptions and results *)

Module Py.

Inductive exn_class : Type :=
| BaseError            (* a plain [Exception] *)
| ValueError
| TypeError
| AttributeError
| IndexError
| KeyError
| UnicodeDecodeError
| BinasciiError
| RequestException     (* requests.RequestException itself *)
| ConnectionError      (* requests.ConnectionError *)
| Timeout              (* requests.Timeout *)
| HTTPError            (* requests.HTTPError, from raise_for_status *)
| InvalidJSONError     (* requests.JSONDecodeError *)
| JSONDecodeError      (* json.JSONDecodeError, a ValueError *)
| DatabaseError        (* psycopg2.Error and its subclasses *)
| BackendError.        (* an error of the ollama or openai client *)

Record exn : Type := mk_exn { exn_kind : exn_class; exn_text : string }.

(** [isinstance(e, requests.RequestException)]. *)
Definition is_request_exception (e : exn) : bool :=
  match exn_kind e with
  | RequestException | ConnectionError | Timeout | HTTPError
  | InvalidJSONError => true
  | _ => false
  end.

Inductive result (A : Type) : Type :=
| Return (a : A)
| Raise (e : exn).

Arguments Return {A} a.
Arguments Raise {A} e.

Definition bind {A B : Type} (r : result A) (k : A -> result B) : result B :=
  match r with
  | Return a => k a
  | Raise e => Raise e
  end.

Definition returns {A : Type} (r : result A) : bool :=
  match r with Return _ => true | Raise _ => false end.

End Py.

Export Py.

Notation "x <- r ;; k" := (bind r (fun x => k))
  (at level 61, r at next level, right associativity).

(** ** Text *)

Module Text.

Definition dquote : string := String (ascii_of_nat 34) EmptyString.
Definition newline : string := String (ascii_of_nat 10) EmptyString.

(** [c.isspace()] on the ASCII range: tab, line feed, vertical tab, form
    feed, carriage return, the four separators 28..31 and the space. *)
Definition isspace (c : ascii) : bool :=
  let n := nat_of_ascii c in
  ((9 <=? n) && (n <=? 13) || (28 <=? n) && (n <=? 32))%nat.

Fixpoint lstrip (s : string) : string :=
  match s with
  | EmptyString => EmptyString
  | String c s' => if isspace c then lstrip s' else s
  end.

Fixpoint rstrip (s : string) : string :=
  match s with
  | EmptyString => EmptyString
  | String c s' =>
      match rstrip s' with
      | EmptyString => if isspace c then EmptyString else String c EmptyString
      | r => String c r
      end
  end.

(** [s.strip()] *)
Definition strip (s : string) : string := rstrip (lstrip s).

(** [s.startswith(p)], returning what follows the prefix. *)
Fixpoint drop_prefix (p s : string) : option string :=
  match p, s with
  | EmptyString, _ => Some s
  | String _ _, EmptyString => None
  | String a p', String b s' =>
      if Ascii.eqb a b then drop_prefix p' s' else None
  end.

(** The text before and after the first occurrence of [sep] in [s]. *)
Fixpoint cut (sep s : string) : option (string * string) :=
  match drop_prefix sep s with
  | Some rest => Some (EmptyString, rest)
  | None =>
      match s with
      | EmptyString => None
      | String c s' =>
          match cut sep s' with
          | Some (a, b) => Some (String c a, b)
          | None => None
          end
      end
  end.

(** [s.split(sep, 1)] for a non-empty [sep]. *)
Definition split1 (sep s : string) : list string :=
  match cut sep s with
  | Some (a, b) => [a; b]
  | None => [s]
  end.

(** [s.split(sep)] for a non-empty [sep]; every cut consumes at least one
    character, so [S (length s)] rounds are enough. *)
Fixpoint split_rounds (n : nat) (sep s : string) : list string :=
  match n with
  | O => [s]
  | S n' =>
      match cut sep s with
      | Some (a, b) => a :: split_rounds n' sep b
      | None => [s]
      end
  end.

Definition split (sep s : string) : list string :=
  split_rounds (S (String.length s)) sep s.

(** [l[i]] on a list: [IndexError] out of range. *)
Definition index {A : Type} (l : list A) (i : nat) : result A :=
  match nth_error l i with
  | Some a => Return a
  | None => Raise (mk_exn IndexError "list index out of range")
  end.

(** [sep.join(l)] *)
Fixpoint join (sep : string) (l : list string) : string :=
  match l with
  | [] => EmptyString
  | [a] => a
  | a :: l' => a ++ sep ++ join sep l'
  end.

(** [sub in s] *)
Definition contains (sub s : string) : bool :=
  match cut sub s with Some _ => true | None => false end.

Definition lower_char (c : ascii) : ascii :=
  let n := nat_of_ascii c in
  if ((65 <=? n) && (n <=? 90))%nat then ascii_of_nat (n + 32) else c.

(** [s.lower()] on ASCII letters. *)
Fixpoint lower (s : string) : string :=
  match s with
  | EmptyString => EmptyString
  | String c s' => String (lower_char c) (lower s')
  end.

(** [str(n)] for an integer. *)
Definition str_of_Z (z : Z) : string := NilZero.string_of_int (Z.to_int z).

End Text.

(** ** JSON values as Python sees them *)

Module Json.

Inductive pyval : Type :=
| VNone
| VBool (b : bool)
| VInt (z : Z)
| VFloat (f : spec_float)
| VStr (s : string)
| VList (l : list pyval)
| VDict (d : list (string * pyval)).

(** [bool(v)] *)
Definition truthy (v : pyval) : bool :=
  match v with
  | VNone => false
  | VBool b => b
  | VInt z => negb (z =? 0)
  | VFloat (S754_zero _) => false
  | VFloat _ => true
  | VStr EmptyString => false
  | VStr _ => true
  | VList [] => false
  | VList _ => true
  | VDict [] => false
  | VDict _ => true
  end.

(** The entry of key [k]; the keys of a decoded object are distinct. *)
Fixpoint lookup (k : string) (d : list (string * pyval)) : option pyval :=
  match d with
  | [] => None
  | (k', v) :: d' => if String.eqb k k' then Some v else lookup k d'
  end.

(** [k in d] *)
Definition has_key (k : string) (d : list (string * pyval)) : bool :=
  match lookup k d with Some _ => true | None => false end.

(** [d.get(k, default)] on a dict *)
Definition dict_get (d : list (string * pyval)) (k : string) (default : pyval)
  : pyval :=
  match lookup k d with Some v => v | None => default end.

(** [v.get(k, default)]: only a dict has the method. *)
Definition get (v : pyval) (k : string) (default : pyval) : result pyval :=
  match v with
  | VDict d => Return (dict_get d k default)
  | _ => Raise (mk_exn AttributeError "object has no attribute 'get'")
  end.

(** [v[k]] with a text key *)
Definition subscript (v : pyval) (k : string) : result pyval :=
  match v with
  | VDict d =>
      match lookup k d with
      | Some x => Return x
      | None => Raise (mk_exn KeyError ("'" ++ k ++ "'"))
      end
  | VList _ | VStr _ =>
      Raise (mk_exn TypeError "indices must be integers or slices, not str")
  | _ => Raise (mk_exn TypeError "object is not subscriptable")
  end.

(** [v.strip()]: only text has the method. *)
Definition strip_method (v : pyval) : result string :=
  match v with
  | VStr s => Return (Text.strip s)
  | _ => Raise (mk_exn AttributeError "object has no attribute 'strip'")
  end.

End Json.

Export Json.

(** ** Library calls of [fetch_readme]: base64 and UTF-8 *)

Module Codec.

Definition b64_value (c : ascii) : option nat :=
  let n := nat_of_ascii c in
  if ((65 <=? n) && (n <=? 90))%nat then Some (n - 65)%nat
  else if ((97 <=? n) && (n <=? 122))%nat then Some (n - 71)%nat
  else if ((48 <=? n) && (n <=? 57))%nat then Some (n + 4)%nat
  else if (n =? 43)%nat then Some 62%nat
  else if (n =? 47)%nat then Some 63%nat
  else None.

Definition padding_error (emitted : nat) : exn :=
  mk_exn BinasciiError
    ("Invalid base64-encoded string: number of data characters ("
       ++ Text.str_of_Z (Z.of_nat (emitted / 3 * 4 + 1))
       ++ ") cannot be 1 more than a multiple of 4").

(** [binascii.a2b_base64] in its default mode: characters outside the
    alphabet are skipped, a complete run of padding ends the input, and a
    dangling group is an error. [quad_pos] counts the sextets of the current
    group, [leftchar] holds its pending bits, [pads] the padding seen since
    the last sextet and [emitted] the bytes produced so far. *)
Fixpoint a2b_base64 (s : string) (quad_pos leftchar pads emitted : nat)
  : result string :=
  match s with
  | EmptyString =>
      match quad_pos with
      | O => Return EmptyString
      | 1%nat => Raise (padding_error emitted)
      | _ => Raise (mk_exn BinasciiError "Incorrect padding")
      end
  | String c s' =>
      if Ascii.eqb c "="%char then
        if (2 <=? quad_pos)%nat then
          if (4 <=? quad_pos + S pads)%nat then Return EmptyString
          else a2b_base64 s' quad_pos leftchar (S pads) emitted
        else a2b_base64 s' quad_pos leftchar pads emitted
      else
        match b64_value c with
        | None => a2b_base64 s' quad_pos leftchar pads emitted
        | Some v =>
            match quad_pos with
            | O => a2b_base64 s' 1%nat v O emitted
            | 1%nat =>
                rest <- a2b_base64 s' 2%nat (v mod 16)%nat O (S emitted) ;;
                Return (String (ascii_of_nat (leftchar * 4 + v / 16)) rest)
            | 2%nat =>
                rest <- a2b_base64 s' 3%nat (v mod 4)%nat O (S emitted) ;;
                Return (String (ascii_of_nat (leftchar * 16 + v / 4)) rest)
            | _ =>
                rest <- a2b_base64 s' O O O (S emitted) ;;
                Return (String (ascii_of_nat (leftchar * 64 + v)) rest)
            end
        end
  end.

Fixpoint all_ascii (s : string) : bool :=
  match s with
  | EmptyString => true
  | String c s' => (nat_of_ascii c <? 128)%nat && all_ascii s'
  end.

(** [base64.b64decode(v)] for a JSON value [v]. *)
Definition b64decode (v : pyval) : result string :=
  match v with
  | VStr s =>
      if all_ascii s then a2b_base64 s O O O O
      else Raise (mk_exn ValueError
                    "string argument should contain only ASCII characters")
  | _ => Raise (mk_exn TypeError
                  "argument should be a bytes-like object or ASCII string")
  end.

Definition in_range (lo hi : nat) (c : ascii) : bool :=
  let n := nat_of_ascii c in ((lo <=? n) && (n <=? hi))%nat.

Definition continuation : ascii -> bool := in_range 128 191.

(** Well-formed UTF-8: shortest encodings only, no surrogates, nothing above
    U+10FFFF. *)
Fixpoint utf8_valid (s : string) : bool :=
  match s with
  | EmptyString => true
  | String a s1 =>
      if in_range 0 127 a then utf8_valid s1
      else
        match s1 with
        | EmptyString => false
        | String b s2 =>
            if in_range 194 223 a then continuation b && utf8_valid s2
            else
              match s2 with
              | EmptyString => false
              | String c s3 =>
                  let second3 :=
                    if in_range 224 224 a then in_range 160 191 b
                    else if in_range 237 237 a then in_range 128 159 b
                    else continuation b in
                  if in_range 224 239 a
                  then second3 && continuation c && utf8_valid s3
                  else
                    match s3 with
                    | EmptyString => false
                    | String d s4 =>
                        let second4 :=
                          if in_range 240 240 a then in_range 144 191 b
                          else if in_range 244 244 a then in_range 128 143 b
                          else continuation b in
                        in_range 240 244 a && second4 && continuation c
                          && continuation d && utf8_valid s4
                    end
              end
        end
  end.

(** [bytes.decode('utf-8')] *)
Definition decode_utf8 (bytes : string) : result string :=
  if utf8_valid bytes then Return bytes
  else Raise (mk_exn UnicodeDecodeError "'utf-8' codec can't decode bytes").

End Codec.

(** ** Binary64 numbers and the [.1f] format *)

Module Float.

Definition prec : Z := 53.
Definition emax : Z := 1024.

Definition of_Z (z : Z) : spec_float :=
  match z with
  | Z0 => S754_zero false
  | Zpos p => binary_round prec emax false p 0
  | Zneg p => binary_round prec emax true p 0
  end.

Definition mul : spec_float -> spec_float -> spec_float := SFmul prec emax.
Definition div : spec_float -> spec_float -> spec_float := SFdiv prec emax.

(** The number written [n / 10^k] in decimal, e.g. [decimal 873 3] for the
    literal [0.873]: the binary64 number nearest to it. *)
Definition decimal (n : Z) (k : nat) : spec_float :=
  div (of_Z n) (of_Z (10 ^ Z.of_nat k)).

(** The integer nearest to [n / d], ties to the even one ([0 < d]). *)
Definition round_half_even (n d : Z) : Z :=
  let q := n / d in
  let r := n mod d in
  match 2 * r ?= d with
  | Lt => q
  | Gt => q + 1
  | Eq => if Z.even q then q else q + 1
  end.

(** The tenths in the exact value [m * 2^e], rounded. *)
Definition tenths (m : positive) (e : Z) : Z :=
  if 0 <=? e then Zpos m * 10 * 2 ^ e
  else round_half_even (Zpos m * 10) (2 ^ (- e)).

(** [f"{x:.1f}"] *)
Definition format_1f (x : spec_float) : string :=
  let sign (s : bool) := if s then "-" else EmptyString in
  match x with
  | S754_nan => "nan"
  | S754_infinity s => sign s ++ "inf"
  | S754_zero s => sign s ++ "0.0"
  | S754_finite s m e =>
      let t := tenths m e in
      sign s ++ Text.str_of_Z (t / 10) ++ "." ++ Text.str_of_Z (t mod 10)
  end.

End Float.

(** ** The outside world *)

Module World.

(** An item of the star-list API. *)
Record starred_repo : Type := {
  sr_name : string;
  sr_full_name : string;
  sr_description : option string;
  sr_html_url : string;
  sr_language : option string;
  sr_stargazers_count : Z
}.

(** A page of the star list after [raise_for_status]: [response.json()] and
    ['next' in response.links]. *)
Record star_page : Type := {
  page_items : list starred_repo;
  page_has_next : bool
}.

(** The reply to a README request: the status code and the outcome of
    [response.json()]. *)
Record readme_response : Type := {
  status_code : Z;
  json_body : result pyval
}.

(** The datastore round trips that can fail. *)
Inductive db_op : Type :=
| OpConnect | OpSelect | OpInsert | OpCommit | OpSearch.

Record world : Type := {
  (** [os.getenv] *)
  getenv : string -> option string;
  (** The [Link] header of [GET /users/<u>/starred?per_page=1], after
      [raise_for_status]. *)
  link_header : string -> result (option string);
  (** [GET /users/<u>/starred?page=<p>&per_page=<n>], after
      [raise_for_status]. *)
  star_list : string -> nat -> nat -> result star_page;
  (** [GET /repos/<full_name>/readme] *)
  readme_api : string -> result readme_response;
  (** The exception a datastore round trip raises, if any; the same for
      every call of a run. *)
  db_fault : db_op -> option exn;
  (** The rows of the similarity query for a query text and a limit. *)
  similarity : string -> Z -> list (string * spec_float);
  (** [ollama.chat(model, messages, stream=False)] *)
  ollama_chat : option string -> list (string * string) -> result pyval;
  (** [client.chat.completions.create(...)]: the message content of each
      choice. *)
  openai_chat :
    list (string * string) -> Z -> spec_float -> result (list (option string))
}.

End World.

Export World.

(** ** provider.py *)

Module Provider.

Record ChatMessage : Type := { role : string; content : string }.

Inductive raw_payload : Type :=
| RawOllama (response : pyval)
| RawOpenAI (choices : list (option string)).

Record ChatResponse : Type := {
  message : list (string * string);
  raw_response : raw_payload
}.

Inductive provider : Type :=
| OpenAIProvider (api_key : string) (base_url : option string)
| OllamaProvider (embedding_model chat_model : option string).

Definition invalid_structure : exn :=
  mk_exn ValueError "Invalid response structure from Ollama".

(** The loop of [OllamaProvider.chat_completion] that converts a message. *)
Definition ollama_format (msg : ChatMessage) : string * string :=
  if String.eqb (role msg) "system" then ("system", content msg)
  else ((if String.eqb (role msg) "user" then "user" else "assistant"),
        content msg).

(** What [OllamaProvider.chat_completion] does with the reply of the back
    end. *)
Definition ollama_normalize (response : pyval) : result ChatResponse :=
  match response with
  | VDict d =>
      match lookup "message" d with
      | Some m =>
          message_content <- get m "content" (VStr EmptyString) ;;
          let message_content :=
            if negb (truthy message_content) && has_key "content" d
            then dict_get d "content" (VStr EmptyString)
            else message_content in
          text <- strip_method message_content ;;
          Return {| message := [("assistant", text)];
                    raw_response := RawOllama response |}
      | None => Raise invalid_structure
      end
  | _ => Raise invalid_structure
  end.

Definition ollama_chat_completion (w : world) (chat_model : option string)
    (messages : list ChatMessage) (max_tokens : Z) (temperature : spec_float)
  : result ChatResponse :=
  response <- ollama_chat w chat_model (map ollama_format messages) ;;
  ollama_normalize response.

Definition openai_chat_completion (w : world)
    (messages : list ChatMessage) (max_tokens : Z) (temperature : spec_float)
  : result ChatResponse :=
  let formatted_messages := map (fun msg => (role msg, content msg)) messages in
  choices <- openai_chat w formatted_messages max_tokens temperature ;;
  first <- Text.index choices 0 ;;
  match first with
  | Some text =>
      Return {| message := [("assistant", Text.strip text)];
                raw_response := RawOpenAI choices |}
  | None =>
      Raise (mk_exn AttributeError
               "'NoneType' object has no attribute 'strip'")
  end.

(** [provider.chat_completion(messages, max_tokens, temperature)] *)
Definition chat_completion (w : world) (p : provider)
    (messages : list ChatMessage) (max_tokens : Z) (temperature : spec_float)
  : result ChatResponse :=
  match p with
  | OpenAIProvider _ _ => openai_chat_completion w messages max_tokens temperature
  | OllamaProvider _ chat_model =>
      ollama_chat_completion w chat_model messages max_tokens temperature
  end.

(** Keyword arguments: the names given, each with its value or [None]. *)
Definition kwargs : Type := list (string * option string).

Fixpoint kwarg (k : string) (kw : kwargs) : option (option string) :=
  match kw with
  | [] => None
  | (k', v) :: kw' => if String.eqb k k' then Some v else kwarg k kw'
  end.

Definition unexpected_keyword (allowed : list string) (kw : kwargs) : bool :=
  existsb (fun kv => negb (existsb (String.eqb (fst kv)) allowed)) kw.

(** The constructor of [OpenAIProvider], called with keyword arguments: the
    client refuses a missing key. *)
Definition new_openai (kw : kwargs) : result provider :=
  if unexpected_keyword ["api_key"; "base_url"; "headers"] kw
  then Raise (mk_exn TypeError "got an unexpected keyword argument")
  else
    match kwarg "api_key" kw with
    | None => Raise (mk_exn TypeError "missing 1 required argument: 'api_key'")
    | Some None =>
        Raise (mk_exn BackendError "The api_key client option must be set")
    | Some (Some key) =>
        Return (OpenAIProvider key
                  (match kwarg "base_url" kw with Some v => v | None => None end))
    end.

(** The constructor of [OllamaProvider], with its two defaults. *)
Definition new_ollama (kw : kwargs) : result provider :=
  if unexpected_keyword ["embedding_model"; "chat_model"] kw
  then Raise (mk_exn TypeError "got an unexpected keyword argument")
  else
    Return (OllamaProvider
              (match kwarg "embedding_model" kw with
               | Some v => v | None => Some "nomic-embed-text" end)
              (match kwarg "chat_model" kw with
               | Some v => v | None => Some "llama3" end)).

Definition create_ai_provider (provider_type : string) (kw : kwargs)
  : result provider :=
  if String.eqb (Text.lower provider_type) "openai" then
    if forallb (fun key => match kwarg key kw with Some _ => true | None => false end)
         ["api_key"]
    then new_openai kw
    else Raise (mk_exn ValueError
                  "OpenAI provider requires these parameters: ['api_key']")
  else if String.eqb (Text.lower provider_type) "ollama" then new_ollama kw
  else Raise (mk_exn ValueError ("Unknown provider type: " ++ provider_type)).

(** [os.getenv(name, default)] *)
Definition getenv_default (w : world) (name default : string) : string :=
  match getenv w name with Some v => v | None => default end.

Definition initialize_ai_provider (w : world) : result provider :=
  let provider_type := Text.lower (getenv_default w "AI_PROVIDER" "ollama") in
  if String.eqb provider_type "openai" then
    create_ai_provider "openai"
      [("api_key", getenv w "OPENAI_API_KEY");
       ("base_url", getenv w "OPENAI_BASE_URL")]
  else if String.eqb provider_type "ollama" then
    create_ai_provider "ollama"
      [("embedding_model",
        Some (getenv_default w "OLLAMA_EMBED_MODEL" "nomic-embed-text"));
       ("chat_model", Some (getenv_default w "OLLAMA_CHAT_MODEL" "llama3"))]
  else Raise (mk_exn ValueError ("Unsupported AI provider: " ++ provider_type)).

End Provider.

(** ** db.py *)

Module Db.

(** The dictionary [repo_info] built by the ingestion. *)
Record repo_info : Type := {
  name : string;
  full_name : string;
  description : option string;
  readme : option string;
  url : string;
  language : option string;
  stars : Z
}.

(** A row of the table [repositories]. *)
Record row : Type := {
  row_id : Z;
  row_github_username : string;
  row_info : repo_info
}.

(** The committed table and the next value of its id sequence. *)
Record database : Type := {
  repositories_table : list row;
  next_id : Z
}.

Definition row_full_name (r : row) : string := full_name (row_info r).

(** [SELECT id FROM repositories WHERE full_name = %s] and [fetchone()] *)
Definition select_by_full_name (fn : string) (db : database) : option row :=
  find (fun r => String.eqb (row_full_name r) fn) (repositories_table db).

(** [INSERT INTO repositories ... RETURNING id], committed. *)
Definition insert_row (github_username : string) (info : repo_info)
    (db : database) : database :=
  {| repositories_table :=
       (repositories_table db ++
          [{| row_id := next_id db;
              row_github_username := github_username;
              row_info := info |}])%list;
     next_id := next_id db + 1 |}.

(** The [except Exception] clause of [store_repository]. *)
Definition store_error (e : exn) : exn :=
  mk_exn BaseError ("Error storing repository and embeddings: " ++ exn_text e).

(** [store_repository(github_username, repo_info)]: the connection is opened
    before the [try]; a failure inside it is rolled back and wrapped. *)
Definition store_repository (w : world) (github_username : string)
    (info : repo_info) (db : database) : database * result Z :=
  match db_fault w OpConnect with
  | Some e => (db, Raise e)
  | None =>
      match db_fault w OpSelect with
      | Some e => (db, Raise (store_error e))
      | None =>
          match select_by_full_name (full_name info) db with
          | Some existing_repo => (db, Return (row_id existing_repo))
          | None =>
              match db_fault w OpInsert with
              | Some e => (db, Raise (store_error e))
              | None =>
                  match db_fault w OpCommit with
                  | Some e => (db, Raise (store_error e))
                  | None =>
                      (insert_row github_username info db,
                       Return (next_id db))
                  end
              end
          end
      end
  end.

(** [search_for_repos(query, limit)]: a [try] with a [finally] and no
    [except]. *)
Definition search_for_repos (w : world) (query : string) (limit : Z)
  : result (list (string * spec_float)) :=
  match db_fault w OpConnect with
  | Some e => Raise e
  | None =>
      match db_fault w OpSearch with
      | Some e => Raise e
      | None => Return (similarity w query limit)
      end
  end.

End Db.

(** ** ingest.py *)

Module Ingest.

Import Db.

(** What the progress sink receives. *)
Inductive status_event : Type :=
| Progress (current_repo : string) (processed_count : nat) (total_count : Z)
| Complete.

(** The effects of a run, in the order they complete. *)
Inductive effect : Type :=
| Sent (ev : status_event)            (* [await send_status(ev)] *)
| ReadmeFetched (full_name : string)  (* [fetch_readme] has returned *)
| StoreDone (full_name : string) (id : Z).  (* [store_repository] has returned *)

Record run_state : Type := {
  db : database;
  trace : list effect
}.

Definition emit (e : effect) (st : run_state) : run_state :=
  {| db := db st; trace := (trace st ++ [e])%list |}.

(** The value returned by a completed run. *)
Record aggregate : Type := {
  github_username : string;
  repos_processed : nat;
  repositories : list repo_info;
  status : string
}.

Definition digit (c : ascii) : option Z :=
  let n := nat_of_ascii c in
  if ((48 <=? n) && (n <=? 57))%nat then Some (Z.of_nat n - 48) else None.

(** Decimal digits, single underscores allowed between two digits. *)
Fixpoint digits (s : string) (acc : Z) (after_digit : bool) : option Z :=
  match s with
  | EmptyString => if after_digit then Some acc else None
  | String c s' =>
      match digit c with
      | Some d => digits s' (acc * 10 + d) true
      | None =>
          if Ascii.eqb c "_"%char && after_digit then digits s' acc false
          else None
      end
  end.

(** [int(s)] *)
Definition py_int (s : string) : result Z :=
  let bad :=
    mk_exn ValueError ("invalid literal for int() with base 10: '" ++ s ++ "'") in
  let body := Text.strip s in
  let parsed :=
    match body with
    | String "-"%char rest => option_map Z.opp (digits rest 0 false)
    | String "+"%char rest => digits rest 0 false
    | _ => digits body 0 false
    end in
  match parsed with
  | Some z => Return z
  | None => Raise bad
  end.

(** [int(headers.get('Link').split(',')[1].split('&page=')[1].split('>')[0])] *)
Definition parse_total (link : option string) : result Z :=
  match link with
  | None =>
      Raise (mk_exn AttributeError
               "'NoneType' object has no attribute 'split'")
  | Some l =>
      last_rel <- Text.index (Text.split "," l) 1 ;;
      after_page <- Text.index (Text.split "&page=" last_rel) 1 ;;
      number <- Text.index (Text.split ">" after_page) 0 ;;
      py_int number
  end.

(** The [try] block of [fetch_readme] after a reply with status 200. *)
Definition decode_readme (resp : readme_response) : result string :=
  body <- json_body resp ;;
  content <- subscript body "content" ;;
  bytes <- Codec.b64decode content ;;
  Codec.decode_utf8 bytes.

(** [fetch_readme(repo_full_name)]: [None] on a status other than 200 and on
    any [requests.RequestException]; other exceptions pass through. *)
Definition fetch_readme (w : world) (repo_full_name : string)
  : result (option string) :=
  let attempt :=
    response <- readme_api w repo_full_name ;;
    if status_code response =? 200
    then (text <- decode_readme response ;; Return (Some text))
    else Return None in
  match attempt with
  | Return r => Return r
  | Raise e => if is_request_exception e then Return None else Raise e
  end.

(** [if readme_content:] *)
Definition readme_truthy (readme_content : option string) : bool :=
  match readme_content with
  | None | Some EmptyString => false
  | Some _ => true
  end.

Definition make_info (repo : starred_repo) (readme_content : option string)
  : repo_info :=
  {| name := sr_name repo;
     full_name := sr_full_name repo;
     description := sr_description repo;
     readme := readme_content;
     url := sr_html_url repo;
     language := sr_language repo;
     stars := sr_stargazers_count repo |}.

(** One round of the [for] loop. *)
Definition process_repo (w : world) (username : string) (total_repos : Z)
    (repo : starred_repo) (st : run_state) (processed_repos : list repo_info)
  : run_state * result (list repo_info) :=
  let repo_name := sr_full_name repo in
  let st1 :=
    emit (Sent (Progress repo_name (List.length processed_repos) total_repos))
      st in
  match fetch_readme w repo_name with
  | Raise e => (st1, Raise e)
  | Return readme_content =>
      let st2 := emit (ReadmeFetched repo_name) st1 in
      let info := make_info repo readme_content in
      if readme_truthy readme_content then
        match store_repository w username info (db st2) with
        | (db', Raise e) => ({| db := db'; trace := trace st2 |}, Raise e)
        | (db', Return id) =>
            (emit (StoreDone repo_name id) {| db := db'; trace := trace st2 |},
             Return (processed_repos ++ [info])%list)
        end
      else (st2, Return (processed_repos ++ [info])%list)
  end.

(** The [for] loop over one page. *)
Fixpoint process_page (w : world) (username : string) (total_repos : Z)
    (starred_repos : list starred_repo) (st : run_state)
    (processed_repos : list repo_info)
  : run_state * result (list repo_info) :=
  match starred_repos with
  | [] => (st, Return processed_repos)
  | repo :: rest =>
      match process_repo w username total_repos repo st processed_repos with
      | (st', Raise e) => (st', Raise e)
      | (st', Return processed') =>
          process_page w username total_repos rest st' processed'
      end
  end.

Definition per_page : nat := 100.

(** The [while True] loop; [fuel] bounds the number of page requests. *)
Fixpoint walk_pages (fuel : nat) (w : world) (username : string)
    (total_repos : Z) (page : nat) (st : run_state)
    (processed_repos : list repo_info)
  : option (run_state * result (list repo_info)) :=
  match fuel with
  | O => None
  | S fuel' =>
      match star_list w username page per_page with
      | Raise e => Some (st, Raise e)
      | Return response =>
          match page_items response with
          | [] => Some (st, Return processed_repos)
          | starred_repos =>
              match process_page w username total_repos starred_repos st
                      processed_repos with
              | (st', Raise e) => Some (st', Raise e)
              | (st', Return processed') =>
                  if page_has_next response
                  then walk_pages fuel' w username total_repos (S page) st'
                         processed'
                  else Some (st', Return processed')
              end
          end
      end
  end.

(** [fetch_and_process_user_stars(github_username, send_status)]; the sink is
    the trace. [None] when [fuel] page requests were not enough. *)
Definition fetch_and_process_user_stars (fuel : nat) (w : world)
    (username : string) (st : run_state)
  : option (run_state * result aggregate) :=
  match link <- link_header w username ;; parse_total link with
  | Raise e => Some (st, Raise e)
  | Return total_repos =>
      match walk_pages fuel w username total_repos 1%nat st [] with
      | None => None
      | Some (st', Raise e) => Some (st', Raise e)
      | Some (st', Return processed_repos) =>
          Some (emit (Sent Complete) st',
                Return {| github_username := username;
                          repos_processed := List.length processed_repos;
                          repositories := processed_repos;
                          status := "success" |})
      end
  end.

End Ingest.

(** ** retrieval.py *)

Module Retrieval.

Import Provider.

Definition header (query : string) : string :=
  "# Your Starred Repositories Related to " ++ Text.dquote ++ query
    ++ Text.dquote.

Definition note : string :=
  Text.newline ++
  "Note: The relevance scores are based on the similarity of the repository names and descriptions to the query.".

(** The three [split] chains of the [try] block. *)
Definition parse_entry (combined_text : string)
  : result (string * string * string) :=
  after_name <- Text.index (Text.split1 "name:" combined_text) 1 ;;
  name_part <- Text.index (Text.split1 "url:" after_name) 0 ;;
  after_url <- Text.index (Text.split1 "url:" combined_text) 1 ;;
  url_part <- Text.index (Text.split1 "content:" after_url) 0 ;;
  content_part <- Text.index (Text.split1 "content:" combined_text) 1 ;;
  Return (Text.strip name_part, Text.strip url_part, Text.strip content_part).

(** The line appended for a well-formed entry. *)
Definition render_line (parts : string * string * string) (score : spec_float)
  : string :=
  let '(name_part, url_part, content_part) := parts in
  "[" ++ name_part ++ "](" ++ url_part ++ ") - " ++ content_part
    ++ " *Relevance: "
    ++ Float.format_1f (Float.mul score (Float.of_Z 100)) ++ "%*".

Definition malformed (combined_text : string) : string :=
  "Malformed repository entry: " ++ combined_text.

(** The [for] loop: [context] grows by a line per well-formed entry,
    [warnings] by a warning per entry caught by [except IndexError]. *)
Fixpoint render_entries (repos : list (string * spec_float))
    (context warnings : list string) : result (list string * list string) :=
  match repos with
  | [] => Return (context, warnings)
  | (combined_text, score) :: rest =>
      match parse_entry combined_text with
      | Return parts =>
          render_entries rest (context ++ [render_line parts score])%list
            warnings
      | Raise e =>
          match exn_kind e with
          | IndexError =>
              render_entries rest context
                (warnings ++ [malformed combined_text])%list
          | _ => Raise e
          end
      end
  end.

(** [format_repo_context(repos, query)]: the text and the warnings logged. *)
Definition format_repo_context (repos : list (string * spec_float))
    (query : string) : result (string * list string) :=
  lines <- render_entries repos [header query] [] ;;
  let '(context, warnings) := lines in
  let context :=
    match context with
    | [] => context
    | _ => (context ++ [note])%list
    end in
  Return (Text.join Text.newline context, warnings).

Definition system_prompt : string :=
"You are a technical assistant specializing in analyzing GitHub repositories.
Provide concise, structured responses that:
1. Focus on how each repository specifically addresses the user's query
2. Highlight key technical features and capabilities
3. Keep explanations brief and to the point
4. Use markdown formatting appropriately".

Definition user_prompt (repo_context : string) : string :=
"Based on the following repository information, provide a structured response that helps the user understand the most relevant repositories for their query.

" ++ repo_context ++ "

Focus on concrete technical details rather than general statements.".

(** What [generate_response] hands back: the declared text, or the object
    the provider returned. *)
Inductive response_value : Type :=
| TextValue (s : string)
| ChatValue (r : ChatResponse).

Definition default_limit : Z := 5.

(** [generate_response(query, format_only)] *)
Definition generate_response (w : world) (query : string) (format_only : bool)
  : result response_value :=
  similar_repos <- Db.search_for_repos w query default_limit ;;
  provider <- initialize_ai_provider w ;;
  formatted <- format_repo_context similar_repos query ;;
  let repo_context := fst formatted in
  if format_only then Return (TextValue repo_context)
  else
    let messages :=
      [ {| role := "system"; content := system_prompt |};
        {| role := "user"; content := user_prompt repo_context |} ] in
    response <- chat_completion w provider messages 1000 (Float.decimal 1 1) ;;
    Return (ChatValue response).

End Retrieval.

(** ** Notions used by the statements *)

Module Props.

Import Provider Db Ingest Retrieval.

(** [sub] occurs in [s]. *)
Definition occurs_in (sub s : string) : Prop :=
  exists pre post, s = pre ++ sub ++ post.

(** The two reply shapes of the local chat back end, and the reply that
    carries the text at the top level next to a [message] without text. *)
Definition nested_shape (c : string) : pyval :=
  VDict [("message", VDict [("content", VStr c)])].

Definition top_level_shape (c : string) : pyval :=
  VDict [("content", VStr c)].

Definition fallback_shape (c : string) : pyval :=
  VDict [("message", VDict []); ("content", VStr c)].

(** A reply as the local back end sends it, the text nested under
    [message] among other keys, and a degraded reply, the text at the top
    level next to a [message] whose content is empty. *)
Definition full_reply (c : string) : pyval :=
  VDict [("model", VStr "llama3");
         ("created_at", VStr "2024-05-01T10:00:00Z");
         ("message", VDict [("role", VStr "assistant"); ("content", VStr c)]);
         ("done", VBool true)].

Definition degraded_reply (c : string) : pyval :=
  VDict [("model", VStr "llama3");
         ("message",
          VDict [("role", VStr "assistant"); ("content", VStr EmptyString)]);
         ("content", VStr c);
         ("done", VBool true)].

(** [isinstance(response, dict) and 'message' in response] *)
Definition has_message_key (response : pyval) : bool :=
  match response with
  | VDict d => has_key "message" d
  | _ => false
  end.

(** The [message] mapping of a result, when there is one. *)
Definition message_of (r : result ChatResponse) : option (list (string * string)) :=
  match r with
  | Return c => Some (message c)
  | Raise _ => None
  end.

(** [e'] is [e] with some context put in front of its text. *)
Definition wrapped_with_context (e e' : exn) : Prop :=
  exists ctx, ctx <> EmptyString /\ exn_text e' = ctx ++ exn_text e.

(** The exception a search meets first, in the order of its round trips. *)
Definition search_fault (w : world) : option exn :=
  match db_fault w OpConnect with
  | Some e => Some e
  | None => db_fault w OpSearch
  end.

(** No round trip of [store_repository] fails. *)
Definition store_healthy (w : world) : Prop :=
  db_fault w OpConnect = None /\ db_fault w OpSelect = None /\
  db_fault w OpInsert = None /\ db_fault w OpCommit = None.

(** The data-model invariant: at most one row per qualified name. *)
Definition unique_names (d : database) : Prop :=
  NoDup (map row_full_name (repositories_table d)).

Definition rows_named (fn : string) (d : database) : list row :=
  filter (fun r => String.eqb (row_full_name r) fn) (repositories_table d).

(** A synthetic paginated source: request [p] (from 1) is answered with the
    [p]-th page, a [next] link on every page but the last, and the empty list
    past the end. *)
Definition paged_source (pages : list (list starred_repo)) (p : nat)
  : result star_page :=
  Return {| page_items := nth (p - 1) pages [];
            page_has_next := (p <? List.length pages)%nat |}.

Definition readme_returns (w : world) (repo : starred_repo) : bool :=
  returns (fetch_readme w (sr_full_name repo)).

Definition nonempty {A : Type} (l : list A) : bool :=
  match l with [] => false | _ => true end.

(** A run that nothing interrupts: the total is found in the [Link] header,
    the star list is the paginated source [pages], no README request raises
    past [fetch_readme] and the datastore answers. *)
Record undisturbed (w : world) (username : string)
    (pages : list (list starred_repo)) (total : Z) : Prop := {
  und_total :
    (link <- link_header w username ;; parse_total link) = Return total;
  und_pages : forall p n, star_list w username p n = paged_source pages p;
  und_nonempty : forallb nonempty pages = true;
  und_readme : forallb (readme_returns w) (concat pages) = true;
  und_store : store_healthy w
}.

(** The README text [fetch_readme] hands to the loop. *)
Definition readme_of (w : world) (repo : starred_repo) : option string :=
  match fetch_readme w (sr_full_name repo) with
  | Return r => r
  | Raise _ => None
  end.

Definition info_of (w : world) (repo : starred_repo) : repo_info :=
  make_info repo (readme_of w repo).

(** The README of an item is not absent. *)
Definition readme_present (w : world) (repo : starred_repo) : bool :=
  match readme_of w repo with Some _ => true | None => false end.

(** The effects of one item: its progress event, then its README fetch, then
    its store write when the README is kept. *)
Inductive item_effects (w : world) (total : Z) (k : nat) (repo : starred_repo)
  : list effect -> Prop :=
| item_skipped :
    readme_truthy (readme_of w repo) = false ->
    item_effects w total k repo
      [Sent (Progress (sr_full_name repo) k total);
       ReadmeFetched (sr_full_name repo)]
| item_stored id :
    readme_truthy (readme_of w repo) = true ->
    item_effects w total k repo
      [Sent (Progress (sr_full_name repo) k total);
       ReadmeFetched (sr_full_name repo);
       StoreDone (sr_full_name repo) id].

(** The effects of a sequence of items, the first being number [k]: the
    effects of each item, one item after the other. *)
Inductive items_effects (w : world) (total : Z)
  : nat -> list starred_repo -> list effect -> Prop :=
| items_done k : items_effects w total k [] []
| items_next k repo rest here later :
    item_effects w total k repo here ->
    items_effects w total (S k) rest later ->
    items_effects w total k (repo :: rest) (here ++ later)%list.



(** The combined text the similarity query builds from a row. *)
Definition combined (x y z : string) : string :=
  "name: " ++ x ++ " url: " ++ y ++ " content: " ++ z.

(** [s] has no whitespace at either end. *)
Definition trimmed (s : string) : Prop :=
  Text.lstrip s = s /\ Text.rstrip s = s.

(** A field value that holds none of the markers that follow it. *)
Definition free_of (marker s : string) : Prop := Text.cut marker s = None.

(** No space in [s]. *)
Fixpoint spaceless (s : string) : bool :=
  match s with
  | EmptyString => true
  | String c s' => negb (Ascii.eqb c " "%char) && spaceless s'
  end.

(** The lines of the entries that parse, in order. *)
Fixpoint lines_of (repos : list (string * spec_float)) : list string :=
  match repos with
  | [] => []
  | (combined_text, score) :: rest =>
      match parse_entry combined_text with
      | Return parts => render_line parts score :: lines_of rest
      | Raise _ => lines_of rest
      end
  end.

(** The warnings of the entries that do not parse, in order. *)
Fixpoint warnings_of (repos : list (string * spec_float)) : list string :=
  match repos with
  | [] => []
  | (combined_text, score) :: rest =>
      match parse_entry combined_text with
      | Return _ => warnings_of rest
      | Raise _ => malformed combined_text :: warnings_of rest
      end
  end.

(** One of the three markers is missing from a combined text. *)
Definition missing_marker (combined_text : string) : Prop :=
  Text.contains "name:" combined_text = false \/
  Text.contains "url:" combined_text = false \/
  Text.contains "content:" combined_text = false.

End Props.

(** ** Concrete worlds *)

Module Scenario.

Import Provider Db Ingest Retrieval Props.

(** A world in which nothing is configured and nothing is stored. *)
Definition quiet : world :=
  {| getenv := fun _ => None;
     link_header := fun _ => Return None;
     star_list := fun _ _ _ =>
       Return {| page_items := []; page_has_next := false |};
     readme_api := fun _ =>
       Return {| status_code := 404; json_body := Return VNone |};
     db_fault := fun _ => None;
     similarity := fun _ _ => [];
     ollama_chat := fun _ _ =>
       Raise (mk_exn BackendError "connection refused");
     openai_chat := fun _ _ _ =>
       Raise (mk_exn BackendError "connection refused") |}.

Definition with_ollama_reply (reply : result pyval) (w : world) : world :=
  {| getenv := getenv w; link_header := link_header w;
     star_list := star_list w; readme_api := readme_api w;
     db_fault := db_fault w; similarity := similarity w;
     ollama_chat := fun _ _ => reply; openai_chat := openai_chat w |}.

Definition with_readme (api : string -> result readme_response) (w : world)
  : world :=
  {| getenv := getenv w; link_header := link_header w;
     star_list := star_list w; readme_api := api;
     db_fault := db_fault w; similarity := similarity w;
     ollama_chat := ollama_chat w; openai_chat := openai_chat w |}.

Definition with_db_fault (fault : db_op -> option exn) (w : world) : world :=
  {| getenv := getenv w; link_header := link_header w;
     star_list := star_list w; readme_api := readme_api w;
     db_fault := fault; similarity := similarity w;
     ollama_chat := ollama_chat w; openai_chat := openai_chat w |}.

Definition with_similarity (rows : list (string * spec_float)) (w : world)
  : world :=
  {| getenv := getenv w; link_header := link_header w;
     star_list := star_list w; readme_api := readme_api w;
     db_fault := db_fault w; similarity := fun _ _ => rows;
     ollama_chat := ollama_chat w; openai_chat := openai_chat w |}.

Definition with_stars (link : option string)
    (pages : list (list starred_repo)) (w : world) : world :=
  {| getenv := getenv w; link_header := fun _ => Return link;
     star_list := fun _ p _ => paged_source pages p;
     readme_api := readme_api w;
     db_fault := db_fault w; similarity := similarity w;
     ollama_chat := ollama_chat w; openai_chat := openai_chat w |}.

Definition one_message : list ChatMessage :=
  [ {| role := "user"; content := "hello" |} ].

Definition connection_refused : exn :=
  mk_exn ConnectionError "connection refused".

Definition server_closed : exn :=
  mk_exn DatabaseError "server closed the connection unexpectedly".

(** A [Link] header as the star-list API sends it for [last] pages of one
    item. *)
Definition link_to (last : string) : string :=
  "<https://api.github.com/user/1/starred?per_page=1&page=2>; rel="
    ++ Text.dquote ++ "next" ++ Text.dquote
    ++ ", <https://api.github.com/user/1/starred?per_page=1&page=" ++ last
    ++ ">; rel=" ++ Text.dquote ++ "last" ++ Text.dquote.

Definition star (owner short : string) : starred_repo :=
  {| sr_name := short;
     sr_full_name := owner ++ "/" ++ short;
     sr_description := Some "a project";
     sr_html_url := "https://github.com/" ++ owner ++ "/" ++ short;
     sr_language := None;
     sr_stargazers_count := 7 |}.

(** A README API that knows one repository: its README is the base64 text
    [encoded]; every other request is answered 404. *)
Definition readme_for (known encoded : string) (asked : string)
  : result readme_response :=
  if String.eqb asked known
  then Return {| status_code := 200;
                 json_body := Return (VDict [("content", VStr encoded)]) |}
  else Return {| status_code := 404; json_body := Return VNone |}.

(** Two starred repositories on two pages; only the first has a README. *)
Definition two_pages : list (list starred_repo) :=
  [[star "ada" "engine"]; [star "bob" "notes"]].

Definition two_stars : world :=
  with_stars (Some (link_to "2")) two_pages
    (with_readme (readme_for "ada/engine" "aGVsbG8=") quiet).

(** The answer of the local chat path when the back end replies [reply]. *)
Definition ollama_answer (reply : pyval) : result ChatResponse :=
  ollama_chat_completion (with_ollama_reply (Return reply) quiet)
    (Some "llama3") one_message 1000 (Float.decimal 1 1).

(** The README back end cannot be reached. *)
Definition readme_down : world :=
  with_readme (fun _ => Raise connection_refused) quiet.

(** The similarity query fails. *)
Definition search_down : world :=
  with_db_fault
    (fun op => match op with OpSearch => Some server_closed | _ => None end)
    quiet.

(** The local back end answers a chat request with the nested shape. *)
Definition chatty : world :=
  with_ollama_reply (Return (nested_shape "Try timescaledb."))
    (with_similarity
       [(combined "timescaledb" "https://github.com/timescale/timescaledb"
           "A time-series database", Float.decimal 873 3)]
       quiet).

Definition empty_db : database := {| repositories_table := []; next_id := 1 |}.

Definition fresh : run_state := {| db := empty_db; trace := [] |}.

End Scenario.

(** ** provider.py: embeddings *)

Module Embedding.

Import Provider.

(** The embedding back ends: [ollama.embeddings(model, prompt)], and
    [client.embeddings.create(input, model)] as the [embedding] of each entry
    of [response.data]. *)
Record backends : Type := {
  ollama_embeddings : option string -> string -> result pyval;
  openai_embeddings : list string -> string -> result (list pyval)
}.

(** One round of the loop of [OllamaProvider.generate_embeddings]. *)
Definition embed_one (b : backends) (embedding_model : option string)
    (text : string) : result pyval :=
  response <- ollama_embeddings b embedding_model text ;;
  subscript response "embedding".

(** The loop itself: [embeddings] is the list built so far. *)
Fixpoint embed_loop (b : backends) (embedding_model : option string)
    (texts : list string) (embeddings : list pyval) : result (list pyval) :=
  match texts with
  | [] => Return embeddings
  | text :: rest =>
      embedding <- embed_one b embedding_model text ;;
      embed_loop b embedding_model rest (embeddings ++ [embedding])%list
  end.

Definition ollama_generate_embeddings (b : backends)
    (embedding_model : option string) (texts : list string)
  : result (list pyval) :=
  embed_loop b embedding_model texts [].

Definition openai_generate_embeddings (b : backends) (texts : list string)
  : result (list pyval) :=
  openai_embeddings b texts "text-embedding-ada-002".

(** [provider.generate_embeddings(texts)] *)
Definition generate_embeddings (b : backends) (p : provider)
    (texts : list string) : result (list pyval) :=
  match p with
  | OpenAIProvider _ _ => openai_generate_embeddings b texts
  | OllamaProvider embedding_model _ =>
      ollama_generate_embeddings b embedding_model texts
  end.

End Embedding.

(** ** ingest.py with a sink that may refuse *)

Module Sink.

Import Db Ingest.

(** Awaiting [send_status(ev)] completes, or raises. *)
Definition sink : Type := status_event -> option exn.

Definition accepting : sink := fun _ => None.

(** The sink [lambda x: None]: the call returns [None], and [None] cannot be
    awaited. *)
Definition not_awaitable : sink :=
  fun _ =>
    Some (mk_exn TypeError
            "object NoneType can't be used in 'await' expression").

(** One round of the [for] loop: when the sink takes the progress event the
    round goes on as [Ingest.process_repo] has it. *)
Definition process_repo (send_status : sink) (w : world) (username : string)
    (total_repos : Z) (repo : starred_repo) (st : run_state)
    (processed_repos : list repo_info) : run_state * result (list repo_info) :=
  match send_status
          (Progress (sr_full_name repo) (List.length processed_repos)
             total_repos) with
  | Some e => (st, Raise e)
  | None => Ingest.process_repo w username total_repos repo st processed_repos
  end.

Fixpoint process_page (send_status : sink) (w : world) (username : string)
    (total_repos : Z) (starred_repos : list starred_repo) (st : run_state)
    (processed_repos : list repo_info)
  : run_state * result (list repo_info) :=
  match starred_repos with
  | [] => (st, Return processed_repos)
  | repo :: rest =>
      match process_repo send_status w username total_repos repo st
              processed_repos with
      | (st', Raise e) => (st', Raise e)
      | (st', Return processed') =>
          process_page send_status w username total_repos rest st' processed'
      end
  end.

Fixpoint walk_pages (send_status : sink) (fuel : nat) (w : world)
    (username : string) (total_repos : Z) (page : nat) (st : run_state)
    (processed_repos : list repo_info)
  : option (run_state * result (list repo_info)) :=
  match fuel with
  | O => None
  | S fuel' =>
      match star_list w username page per_page with
      | Raise e => Some (st, Raise e)
      | Return response =>
          match page_items response with
          | [] => Some (st, Return processed_repos)
          | starred_repos =>
              match process_page send_status w username total_repos
                      starred_repos st processed_repos with
              | (st', Raise e) => Some (st', Raise e)
              | (st', Return processed') =>
                  if page_has_next response
                  then walk_pages send_status fuel' w username total_repos
                         (S page) st' processed'
                  else Some (st', Return processed')
              end
          end
      end
  end.

(** [fetch_and_process_user_stars(github_username, send_status)] *)
Definition fetch_and_process_user_stars (send_status : sink) (fuel : nat)
    (w : world) (username : string) (st : run_state)
  : option (run_state * result aggregate) :=
  match link <- link_header w username ;; parse_total link with
  | Raise e => Some (st, Raise e)
  | Return total_repos =>
      match walk_pages send_status fuel w username total_repos 1%nat st [] with
      | None => None
      | Some (st', Raise e) => Some (st', Raise e)
      | Some (st', Return processed_repos) =>
          match send_status Complete with
          | Some e => Some (st', Raise e)
          | None =>
              Some (emit (Sent Complete) st',
                    Return {| github_username := username;
                              repos_processed := List.length processed_repos;
                              repositories := processed_repos;
                              status := "success" |})
          end
      end
  end.

End Sink.

(** ** server.py *)

Module Server.

Import Provider Db Ingest Retrieval.

(** What a handler answers: a body with its status, or an [HTTPException]. *)
Inductive http_reply (A : Type) : Type :=
| Reply (status_code : Z) (content : A)
| HTTPException (status_code : Z) (detail : string).

Arguments Reply {A} status_code content.
Arguments HTTPException {A} status_code detail.






Record ingest_content : Type := {
  message : string;
  result_of_run : aggregate
}.

(** [POST /ingest]: the run is given the sink [lambda x: None]. *)
Definition ingest_stars (fuel : nat) (w : world) (username : string)
    (d : database) : option (database * http_reply ingest_content) :=
  match username with
  | EmptyString => Some (d, HTTPException 400 "No GitHub username provided")
  | _ =>
      match Sink.fetch_and_process_user_stars Sink.not_awaitable fuel w
              username {| db := d; trace := [] |} with
      | None => None
      | Some (st, Return agg) =>
          Some (db st,
                Reply 201
                  {| message := "GitHub user stars processed successfully";
                     result_of_run := agg |})
      | Some (st, Raise e) => Some (db st, HTTPException 500 (exn_text e))
      end
  end.



End Server.

(** ** Further notions used by the statements *)

Module MoreProps.

Import Provider Db Ingest Retrieval Props.

(** The three roles a message is sent with. *)
Definition known_role (r : string) : bool :=
  String.eqb r "system" || String.eqb r "user" || String.eqb r "assistant".

(** [d'] is [d] with rows appended by [username], each with README text. *)
Definition grown_by (username : string) (d d' : database) : Prop :=
  exists added,
    repositories_table d' = (repositories_table d ++ added)%list /\
    Forall (fun r => row_github_username r = username /\
                     readme_truthy (readme (row_info r)) = true) added.

(** The table after the store calls of a run over the items [infos]. *)
Fixpoint store_infos (w : world) (username : string) (infos : list repo_info)
    (d : database) : database :=
  match infos with
  | [] => d
  | info :: rest =>
      store_infos w username rest
        (if readme_truthy (readme info)
         then fst (store_repository w username info d)
         else d)
  end.

(** The document rendered for the rows of a search. *)
Definition rendered (repos : list (string * spec_float)) (query : string)
  : string :=
  Text.join Text.newline ((header query :: lines_of repos) ++ [note])%list.

(** The two messages [generate_response] sends with a rendered document. *)
Definition prompts (repo_context : string) : list ChatMessage :=
  [ {| role := "system"; content := system_prompt |};
    {| role := "user"; content := user_prompt repo_context |} ].

(** The three markers occur in a combined text. *)
Definition has_markers (combined_text : string) : bool :=
  Text.contains "name:" combined_text && Text.contains "url:" combined_text
    && Text.contains "content:" combined_text.

(** The number a decimal numeral stands for, after the digits [acc]. *)
Fixpoint numeral_value (d : Decimal.uint) (acc : Z) : Z :=
  match d with
  | Decimal.Nil => acc
  | Decimal.D0 d' => numeral_value d' (acc * 10 + 0)
  | Decimal.D1 d' => numeral_value d' (acc * 10 + 1)
  | Decimal.D2 d' => numeral_value d' (acc * 10 + 2)
  | Decimal.D3 d' => numeral_value d' (acc * 10 + 3)
  | Decimal.D4 d' => numeral_value d' (acc * 10 + 4)
  | Decimal.D5 d' => numeral_value d' (acc * 10 + 5)
  | Decimal.D6 d' => numeral_value d' (acc * 10 + 6)
  | Decimal.D7 d' => numeral_value d' (acc * 10 + 7)
  | Decimal.D8 d' => numeral_value d' (acc * 10 + 8)
  | Decimal.D9 d' => numeral_value d' (acc * 10 + 9)
  end.

(** [sep] cannot start at the head of [u], whatever follows [u]: the two
    differ at a position both have. *)
Fixpoint clash (sep u : string) : bool :=
  match sep, u with
  | String a sep', String b u' => if Ascii.eqb a b then clash sep' u' else true
  | _, _ => false
  end.

(** [sep] starts nowhere in [pre], whatever follows [pre]. *)
Fixpoint clear (sep pre : string) : bool :=
  match pre with
  | EmptyString => true
  | String _ pre' => clash sep pre && clear sep pre'
  end.

(** No whitespace in [s]. *)
Fixpoint spacefree (s : string) : bool :=
  match s with
  | EmptyString => true
  | String c s' => negb (Text.isspace c) && spacefree s'
  end.

(** Only decimal digits in [s]. *)
Fixpoint all_digits (s : string) : bool :=
  match s with
  | EmptyString => true
  | String c s' =>
      match digit c with Some _ => true | None => false end && all_digits s'
  end.

End MoreProps.

(** ** Further concrete worlds *)

Module MoreScenario.

Import Provider Db Ingest Retrieval Props Scenario MoreProps.

(** A local embedding back end that answers with the length of the text, and
    has nothing to say about the text [boom]. *)
Definition counting_backend : Embedding.backends :=
  {| Embedding.ollama_embeddings := fun _ text =>
       if String.eqb text "boom"
       then Return (VDict [("error", VStr "no embedding")])
       else Return (VDict [("embedding",
                            VList [VInt (Z.of_nat (String.length text))])]);
     Embedding.openai_embeddings := fun texts _ =>
       Return (map (fun t => VList [VInt (Z.of_nat (String.length t))]) texts) |}.

(** Every round trip of the store fails but the connection. *)
Definition insert_down : world :=
  with_db_fault
    (fun op => match op with OpInsert => Some server_closed | _ => None end)
    quiet.

(** The README of [ada/engine] is served, and no insert goes through. *)
Definition readme_but_no_insert : world :=
  with_readme (readme_for "ada/engine" "aGVsbG8=") insert_down.

(** The README of [ada/engine] is served, and the README of [bob/notes] is
    served with a content that is not base64. *)
Definition broken_readme : world :=
  with_readme
    (fun asked =>
       if String.eqb asked "bob/notes"
       then Return {| status_code := 200;
                      json_body := Return (VDict [("content", VStr "a")]) |}
       else readme_for "ada/engine" "aGVsbG8=" asked)
    quiet.

(** The state once [ada/engine], first of three items, is stored. *)
Definition after_engine : run_state :=
  {| db := {| repositories_table :=
                [{| row_id := 1; row_github_username := "u";
                    row_info :=
                      make_info (star "ada" "engine") (Some "hello") |}];
              next_id := 2 |};
     trace :=
       [Sent (Progress "ada/engine" 0 3); ReadmeFetched "ada/engine";
        StoreDone "ada/engine" 1] |}.

Definition with_getenv (env : string -> option string) (w : world) : world :=
  {| getenv := env; link_header := link_header w;
     star_list := star_list w; readme_api := readme_api w;
     db_fault := db_fault w; similarity := similarity w;
     ollama_chat := ollama_chat w; openai_chat := openai_chat w |}.

(** The provider kind is one the factory does not know. *)
Definition misconfigured : world :=
  with_getenv
    (fun k => if String.eqb k "AI_PROVIDER" then Some "Gemini" else None)
    chatty.

(** The parts of the [Link] header [link_to last] around its last page. *)
Definition first_relation : string :=
  "<https://api.github.com/user/1/starred?per_page=1&page=2>; rel="
    ++ Text.dquote ++ "next" ++ Text.dquote.

Definition before_page : string :=
  " <https://api.github.com/user/1/starred?per_page=1".

Definition after_page : string :=
  ">; rel=" ++ Text.dquote ++ "last" ++ Text.dquote.

Definition engine_row : row :=
  {| row_id := 1; row_github_username := "u";
     row_info := make_info (star "ada" "engine") (Some "hello") |}.

Definition one_row_db : database :=
  {| repositories_table := [engine_row]; next_id := 2 |}.

(** The state and the value a run over [two_stars] ends with. *)
Definition after_two_stars : run_state :=
  {| db := one_row_db;
     trace :=
       [Sent (Progress "ada/engine" 0 2); ReadmeFetched "ada/engine";
        StoreDone "ada/engine" 1;
        Sent (Progress "bob/notes" 1 2); ReadmeFetched "bob/notes";
        Sent Complete] |}.

Definition two_stars_result : aggregate :=
  {| github_username := "u";
     repos_processed := 2;
     repositories :=
       [make_info (star "ada" "engine") (Some "hello");
        make_info (star "bob" "notes") None];
     status := "success" |}.

End MoreScenario.

(** * Properties *)

Import Provider Db Ingest Retrieval Props Scenario.

(** ** Worked values *)

Example strip_both_ends : Text.strip "  a b  " = "a b".
Proof. reflexivity. Qed.

Example split1_first_marker_only :
  Text.split1 "url:" "name: X url: Y url: Z" = ["name: X "; " Y url: Z"].
Proof. reflexivity. Qed.

Example b64decode_hello : Codec.b64decode (VStr "aGVsbG8=") = Return "hello".
Proof. reflexivity. Qed.

Example b64decode_dangling :
  Codec.b64decode (VStr "aGVsbG8")
  = Raise (mk_exn BinasciiError "Incorrect padding").
Proof. reflexivity. Qed.

Example parse_total_last_page : parse_total (Some (link_to "57")) = Return 57.
Proof. vm_compute. reflexivity. Qed.

Example parse_total_without_header :
  parse_total None
  = Raise (mk_exn AttributeError "'NoneType' object has no attribute 'split'").
Proof. reflexivity. Qed.

Example run_over_two_pages :
  option_map (fun r => trace (fst r))
    (fetch_and_process_user_stars 3 two_stars "u" fresh)
  = Some [Sent (Progress "ada/engine" 0 2); ReadmeFetched "ada/engine";
          StoreDone "ada/engine" 1;
          Sent (Progress "bob/notes" 1 2); ReadmeFetched "bob/notes";
          Sent Complete].
Proof. vm_compute. reflexivity. Qed.

Example run_needs_a_request_per_page :
  fetch_and_process_user_stars 1 two_stars "u" fresh = None.
Proof. vm_compute. reflexivity. Qed.

Example format_only_is_text :
  generate_response chatty "timescale" true
  = Return (TextValue
              (Text.join Text.newline
                 [header "timescale";
                  "[timescaledb](https://github.com/timescale/timescaledb) - A time-series database *Relevance: 87.3%*";
                  note])).
Proof. vm_compute. reflexivity. Qed.

(** ** The local chat path *)

Section OllamaReplies.

Variable w : world.
Variable chat_model : option string.
Variable messages : list ChatMessage.
Variable max_tokens : Z.
Variable temperature : spec_float.

Lemma strip_never_invalid (v raw : pyval) :
  (text <- strip_method v ;;
   Return {| message := [("assistant", text)]; raw_response := RawOllama raw |})
  <> Raise invalid_structure.
Proof. destruct v; simpl; discriminate. Qed.

Lemma normalize_invalid_iff (response : pyval) :
  ollama_normalize response = Raise invalid_structure <->
  has_message_key response = false.
Proof.
  destruct response as [| b | z | f | s | l | d]; simpl;
    try (split; [reflexivity | intros _; reflexivity]).
  unfold has_key. destruct (lookup "message" d) as [m |] eqn:Hm.
  - split; [| discriminate]. intros H. exfalso. revert H.
    destruct m as [| b | z | f | s | l | dm]; simpl; try discriminate.
    apply strip_never_invalid.
  - split; reflexivity.
Qed.

Lemma normalize_nested (c : string) :
  message_of (ollama_normalize (nested_shape c))
  = Some [("assistant", Text.strip c)].
Proof. destruct c; reflexivity. Qed.

Lemma normalize_fallback (c : string) :
  message_of (ollama_normalize (fallback_shape c))
  = Some [("assistant", Text.strip c)].
Proof. destruct c; reflexivity. Qed.

Lemma completion_of_reply (response : pyval) :
  ollama_chat w chat_model (map ollama_format messages) = Return response ->
  ollama_chat_completion w chat_model messages max_tokens temperature
  = ollama_normalize response.
Proof. intros H. unfold ollama_chat_completion. rewrite H. reflexivity. Qed.

End OllamaReplies.

(** C1, as stated, fails: a reply with the text only at the top level is
    not normalized like the nested reply of the same text; it is refused. *)
Lemma C1_top_level_reply_is_refused :
  ollama_answer (top_level_shape "hi") = Raise invalid_structure /\
  message_of (ollama_answer (nested_shape "hi"))
    <> message_of (ollama_answer (top_level_shape "hi")).
Proof. split; [reflexivity | discriminate]. Qed.

Lemma normalize_nested_content (d dm : list (string * pyval)) (c : string) :
  lookup "message" d = Some (VDict dm) ->
  lookup "content" dm = Some (VStr c) ->
  c <> EmptyString \/ has_key "content" d = false ->
  message_of (ollama_normalize (VDict d)) = Some [("assistant", Text.strip c)].
Proof.
  intros Hm Hc Hwhy. unfold ollama_normalize. rewrite Hm.
  unfold get, dict_get at 1. rewrite Hc. cbn [bind].
  assert (Hkeep :
    negb (truthy (VStr c)) && has_key "content" d = false).
  { destruct Hwhy as [Hne | Hno].
    - destruct c; [congruence | reflexivity].
    - rewrite Hno. apply andb_false_r. }
  rewrite Hkeep. reflexivity.
Qed.

Lemma normalize_top_level_content (d dm : list (string * pyval)) (c : string) :
  lookup "message" d = Some (VDict dm) ->
  truthy (dict_get dm "content" (VStr EmptyString)) = false ->
  lookup "content" d = Some (VStr c) ->
  message_of (ollama_normalize (VDict d)) = Some [("assistant", Text.strip c)].
Proof.
  intros Hm Hfalsy Hc. unfold ollama_normalize. rewrite Hm.
  unfold get. cbn [bind]. rewrite Hfalsy.
  unfold has_key, dict_get at 1. rewrite Hc. reflexivity.
Qed.

(** C1, amended: when the back end replies, [chat_completion] on the local
    path raises the invalid-structure error exactly when the reply is not a
    mapping with a [message] key. Of a reply with a [message] mapping,
    whatever its other keys: a text nested under [message] is the answer when
    it is not empty or when no content stands at the top level, and a text at
    the top level is the answer when the content nested under [message] is
    missing or empty (or any other false value). In both cases the response
    maps [assistant] to the text stripped; so it is in particular for the
    nested reply and for the reply that carries the same text at the top
    level next to a [message] without text. *)
Theorem C1_ollama_normalization
    (w : world) (chat_model : option string) (messages : list ChatMessage)
    (max_tokens : Z) (temperature : spec_float) (response : pyval)
    (Hreply : ollama_chat w chat_model (map ollama_format messages)
              = Return response) :
  (ollama_chat_completion w chat_model messages max_tokens temperature
   = Raise invalid_structure <-> has_message_key response = false) /\
  (forall d dm c,
     response = VDict d ->
     lookup "message" d = Some (VDict dm) ->
     lookup "content" dm = Some (VStr c) ->
     c <> EmptyString \/ has_key "content" d = false ->
     message_of
       (ollama_chat_completion w chat_model messages max_tokens temperature)
     = Some [("assistant", Text.strip c)]) /\
  (forall d dm c,
     response = VDict d ->
     lookup "message" d = Some (VDict dm) ->
     truthy (dict_get dm "content" (VStr EmptyString)) = false ->
     lookup "content" d = Some (VStr c) ->
     message_of
       (ollama_chat_completion w chat_model messages max_tokens temperature)
     = Some [("assistant", Text.strip c)]) /\
  (forall c, response = nested_shape c \/ response = fallback_shape c ->
     message_of
       (ollama_chat_completion w chat_model messages max_tokens temperature)
     = Some [("assistant", Text.strip c)]).
Proof.
  rewrite (completion_of_reply _ _ _ max_tokens temperature _ Hreply).
  split; [apply normalize_invalid_iff |].
  split; [intros d dm c ->; apply normalize_nested_content |].
  split; [intros d dm c ->; apply normalize_top_level_content |].
  intros c [-> | ->]; [apply normalize_nested | apply normalize_fallback].
Qed.

Lemma C1_ollama_normalization_witness :
  (ollama_answer (full_reply " hi ") = Raise invalid_structure
   <-> has_message_key (full_reply " hi ") = false) /\
  (forall d dm c,
     full_reply " hi " = VDict d ->
     lookup "message" d = Some (VDict dm) ->
     lookup "content" dm = Some (VStr c) ->
     c <> EmptyString \/ has_key "content" d = false ->
     message_of (ollama_answer (full_reply " hi "))
     = Some [("assistant", Text.strip c)]) /\
  (forall d dm c,
     full_reply " hi " = VDict d ->
     lookup "message" d = Some (VDict dm) ->
     truthy (dict_get dm "content" (VStr EmptyString)) = false ->
     lookup "content" d = Some (VStr c) ->
     message_of (ollama_answer (full_reply " hi "))
     = Some [("assistant", Text.strip c)]) /\
  (forall c,
     full_reply " hi " = nested_shape c \/
     full_reply " hi " = fallback_shape c ->
     message_of (ollama_answer (full_reply " hi "))
     = Some [("assistant", Text.strip c)]).
Proof.
  apply (C1_ollama_normalization
           (with_ollama_reply (Return (full_reply " hi ")) quiet)
           (Some "llama3") one_message 1000 (Float.decimal 1 1)
           (full_reply " hi ")).
  reflexivity.
Defined.

Example full_reply_is_normalized :
  message_of (ollama_answer (full_reply " hi ")) = Some [("assistant", "hi")].
Proof. reflexivity. Qed.

Example degraded_reply_is_normalized :
  message_of (ollama_answer (degraded_reply " hi ")) = Some [("assistant", "hi")].
Proof. reflexivity. Qed.

(** ** Answer generation *)

Lemma generate_response_never_text (w : world) (query : string) (s : string) :
  generate_response w query false <> Return (TextValue s).
Proof.
  unfold generate_response.
  destruct (search_for_repos w query default_limit); simpl; [| discriminate].
  destruct (initialize_ai_provider w); simpl; [| discriminate].
  destruct (format_repo_context a query); simpl; [| discriminate].
  destruct (chat_completion w a0 _ 1000 (Float.decimal 1 1)); simpl;
    discriminate.
Qed.

(** C3: with the local back end answering, [generate_response] without
    "format only" hands back the provider's response object, not a text. *)
Theorem C3_answer_is_the_response_object :
  generate_response chatty "Show me repos that use timescale" false
  = Return (ChatValue
              {| message := [("assistant", "Try timescaledb.")];
                 raw_response := RawOllama (nested_shape "Try timescaledb.") |})
  /\ forall s,
       generate_response chatty "Show me repos that use timescale" false
       <> Return (TextValue s).
Proof.
  split; [vm_compute; reflexivity | intros s; apply generate_response_never_text].
Qed.

(** ** README requests *)

(** C4, as stated, fails: with the README back end unreachable the request
    raises, and [fetch_readme] raises nothing. *)
Lemma C4_network_error_is_swallowed :
  readme_api readme_down "ada/engine" = Raise connection_refused /\
  ~ (exists e, fetch_readme readme_down "ada/engine" = Raise e).
Proof.
  split; [reflexivity |]. intros [e H]. vm_compute in H. discriminate.
Qed.

(** C4, amended: a network error of the README request is caught by
    [fetch_readme], which asks once and returns [None]; the item goes on as
    one without README: its progress event is sent, nothing is stored and it
    joins the processed list. *)
Theorem C4_network_error_means_absent
    (w : world) (username : string) (total : Z) (repo : starred_repo)
    (st : run_state) (processed : list repo_info) (e : exn)
    (Hraise : readme_api w (sr_full_name repo) = Raise e)
    (Hnet : is_request_exception e = true) :
  fetch_readme w (sr_full_name repo) = Return None /\
  process_repo w username total repo st processed
  = (emit (ReadmeFetched (sr_full_name repo))
       (emit (Sent (Progress (sr_full_name repo) (List.length processed) total))
          st),
     Return (processed ++ [make_info repo None])%list).
Proof.
  assert (Hf : fetch_readme w (sr_full_name repo) = Return None).
  { unfold fetch_readme. rewrite Hraise. simpl. rewrite Hnet. reflexivity. }
  split; [exact Hf |]. unfold process_repo. rewrite Hf. reflexivity.
Qed.

Lemma C4_network_error_means_absent_witness :
  fetch_readme readme_down (sr_full_name (star "ada" "engine")) = Return None /\
  process_repo readme_down "u" 2 (star "ada" "engine") fresh []
  = (emit (ReadmeFetched (sr_full_name (star "ada" "engine")))
       (emit (Sent (Progress (sr_full_name (star "ada" "engine")) 0 2)) fresh),
     Return [make_info (star "ada" "engine") None]).
Proof.
  apply (C4_network_error_means_absent readme_down "u" 2 (star "ada" "engine")
           fresh [] connection_refused); reflexivity.
Defined.

(** ** The store *)

Lemma length_append (a b : string) :
  String.length (a ++ b) = (String.length a + String.length b)%nat.
Proof. induction a as [| c a IH]; simpl; [reflexivity | now rewrite IH]. Qed.

Lemma append_not_longer (ctx s : string) :
  ctx <> EmptyString -> s <> ctx ++ s.
Proof.
  intros Hctx Heq. apply (f_equal String.length) in Heq.
  rewrite length_append in Heq.
  destruct ctx; [congruence | simpl in Heq; lia].
Qed.

(** C5, as stated, fails: the exception of a failed similarity query
    reaches the caller as it is, with no context added. *)
Lemma C5_search_error_is_not_wrapped :
  search_for_repos search_down "timescale" 5 = Raise server_closed /\
  ~ wrapped_with_context server_closed server_closed.
Proof.
  split; [reflexivity |]. intros [ctx [Hctx Heq]].
  exact (append_not_longer ctx _ Hctx Heq).
Qed.

(** C5, amended: a datastore error met by the search reaches the caller
    unchanged, and a search that met one returns no list at all. *)
Theorem C5_search_error_propagates
    (w : world) (query : string) (limit : Z) (e : exn)
    (Hfault : search_fault w = Some e) :
  search_for_repos w query limit = Raise e /\
  forall rows, search_for_repos w query limit <> Return rows.
Proof.
  assert (H : search_for_repos w query limit = Raise e).
  { unfold search_for_repos, search_fault in *.
    destruct (db_fault w OpConnect); [congruence |].
    destruct (db_fault w OpSearch); congruence. }
  split; [exact H | intros rows; rewrite H; discriminate].
Qed.

Lemma C5_search_error_propagates_witness :
  search_for_repos search_down "timescale" 5 = Raise server_closed /\
  forall rows, search_for_repos search_down "timescale" 5 <> Return rows.
Proof.
  apply (C5_search_error_propagates search_down "timescale" 5 server_closed).
  reflexivity.
Defined.

Section StoreTwice.

Variable w : world.
Hypothesis Hhealthy : store_healthy w.

Lemma store_existing (u : string) (info : repo_info) (d : database) (r : row) :
  select_by_full_name (full_name info) d = Some r ->
  store_repository w u info d = (d, Return (row_id r)).
Proof.
  intros Hsel. destruct Hhealthy as (Hc & Hs & _).
  unfold store_repository. now rewrite Hc, Hs, Hsel.
Qed.

Lemma store_new (u : string) (info : repo_info) (d : database) :
  select_by_full_name (full_name info) d = None ->
  store_repository w u info d = (insert_row u info d, Return (next_id d)).
Proof.
  intros Hsel. destruct Hhealthy as (Hc & Hs & Hi & Hk).
  unfold store_repository. now rewrite Hc, Hs, Hsel, Hi, Hk.
Qed.

End StoreTwice.

Lemma filter_of_find_none {A : Type} (f : A -> bool) (l : list A) :
  find f l = None -> filter f l = [].
Proof.
  induction l as [| a l IH]; simpl; [reflexivity |].
  destruct (f a); [discriminate | exact IH].
Qed.

Lemma find_after_none {A : Type} (f : A -> bool) (l : list A) (x : A) :
  find f l = None -> f x = true -> find f (l ++ [x]) = Some x.
Proof.
  intros Hl Hx. induction l as [| a l IH]; simpl in *.
  - now rewrite Hx.
  - destruct (f a); [discriminate | now apply IH].
Qed.

Lemma no_row_named (fn : string) (l : list row) :
  ~ In fn (map row_full_name l) ->
  filter (fun r => String.eqb (row_full_name r) fn) l = [].
Proof.
  induction l as [| a l IH]; simpl; intros Hnot; [reflexivity |].
  destruct (String.eqb_spec (row_full_name a) fn) as [Heq | Hne].
  - exfalso. apply Hnot. now left.
  - apply IH. intros Hin. apply Hnot. now right.
Qed.

Lemma one_row_named (fn : string) (l : list row) (r : row) :
  NoDup (map row_full_name l) ->
  find (fun r => String.eqb (row_full_name r) fn) l = Some r ->
  List.length (filter (fun r => String.eqb (row_full_name r) fn) l) = 1%nat.
Proof.
  induction l as [| a l IH]; simpl; intros Hnd Hfind; [discriminate |].
  inversion Hnd as [| x xs Hnotin Hnd']; subst.
  destruct (String.eqb_spec (row_full_name a) fn) as [Heq | Hne].
  - simpl. rewrite no_row_named; [reflexivity | now rewrite <- Heq].
  - now apply IH.
Qed.

Lemma not_named_of_find_none (fn : string) (l : list row) :
  find (fun r => String.eqb (row_full_name r) fn) l = None ->
  ~ In fn (map row_full_name l).
Proof.
  induction l as [| a l IH]; simpl; intros Hfind; [tauto |].
  destruct (String.eqb_spec (row_full_name a) fn) as [Heq | Hne];
    [discriminate |].
  intros [Hhere | Hlater]; [contradiction | now apply IH].
Qed.

Lemma NoDup_snoc {A : Type} (l : list A) (x : A) :
  NoDup l -> ~ In x l -> NoDup (l ++ [x]).
Proof.
  induction l as [| a l IH]; simpl; intros Hnd Hnot.
  - constructor; [tauto | constructor].
  - inversion Hnd as [| a' l' Ha Hl]; subst. constructor.
    + rewrite in_app_iff. simpl. intros [Hin | [Heq | []]]; [tauto |].
      apply Hnot. now left.
    + apply IH; [exact Hl | tauto].
Qed.

(** C6: with the datastore answering and at most one row per qualified name,
    [store_repository] returns the id of the row that has the name and leaves
    the table as it is, or else appends a row and returns its new id; a second
    call with the same qualified name returns the same id, writes nothing and
    leaves exactly one row of that name. *)
Theorem C6_store_once_per_name
    (w : world) (u1 u2 : string) (info1 info2 : repo_info) (d : database)
    (Hw : store_healthy w) (Huniq : unique_names d)
    (Hsame : full_name info2 = full_name info1) :
  (forall r, select_by_full_name (full_name info1) d = Some r ->
     store_repository w u1 info1 d = (d, Return (row_id r))) /\
  (select_by_full_name (full_name info1) d = None ->
     store_repository w u1 info1 d
     = (insert_row u1 info1 d, Return (next_id d))) /\
  exists id d1,
    store_repository w u1 info1 d = (d1, Return id) /\
    store_repository w u2 info2 d1 = (d1, Return id) /\
    List.length (rows_named (full_name info1) d1) = 1%nat /\
    unique_names d1.
Proof.
  split; [intros r; apply (store_existing w Hw) |].
  split; [apply (store_new w Hw) |].
  destruct (select_by_full_name (full_name info1) d) as [r |] eqn:Hsel.
  - exists (row_id r), d. split; [now apply store_existing |].
    split; [apply store_existing; [exact Hw | now rewrite Hsame] |].
    split; [| exact Huniq].
    unfold rows_named. now apply (one_row_named _ _ r).
  - exists (next_id d), (insert_row u1 info1 d).
    split; [now apply store_new |].
    assert (Hfound :
      select_by_full_name (full_name info1) (insert_row u1 info1 d)
      = Some {| row_id := next_id d; row_github_username := u1;
                row_info := info1 |}).
    { unfold select_by_full_name, insert_row; simpl.
      apply find_after_none; [exact Hsel |].
      unfold row_full_name; simpl. apply String.eqb_refl. }
    split.
    + apply (store_existing w Hw u2 info2 _
               {| row_id := next_id d; row_github_username := u1;
                  row_info := info1 |}).
      rewrite Hsame. exact Hfound.
    + split.
      * unfold rows_named, insert_row; simpl. rewrite filter_app.
        rewrite (filter_of_find_none _ _ Hsel). simpl.
        unfold row_full_name; simpl. now rewrite String.eqb_refl.
      * unfold unique_names, insert_row; simpl. rewrite map_app. simpl.
        apply NoDup_snoc; [exact Huniq |].
        now apply not_named_of_find_none.
Qed.

Lemma C6_store_once_per_name_witness :
  (forall r,
     select_by_full_name (full_name (make_info (star "ada" "engine") (Some "hello")))
       empty_db = Some r ->
     store_repository quiet "u" (make_info (star "ada" "engine") (Some "hello"))
       empty_db = (empty_db, Return (row_id r))) /\
  (select_by_full_name (full_name (make_info (star "ada" "engine") (Some "hello")))
     empty_db = None ->
   store_repository quiet "u" (make_info (star "ada" "engine") (Some "hello"))
     empty_db
   = (insert_row "u" (make_info (star "ada" "engine") (Some "hello")) empty_db,
      Return (next_id empty_db))) /\
  exists id d1,
    store_repository quiet "u" (make_info (star "ada" "engine") (Some "hello"))
      empty_db = (d1, Return id) /\
    store_repository quiet "v" (make_info (star "ada" "engine") None) d1
      = (d1, Return id) /\
    List.length
      (rows_named (full_name (make_info (star "ada" "engine") (Some "hello"))) d1)
      = 1%nat /\
    unique_names d1.
Proof.
  apply (C6_store_once_per_name quiet "u" "v"
           (make_info (star "ada" "engine") (Some "hello"))
           (make_info (star "ada" "engine") None) empty_db).
  - repeat split.
  - constructor.
  - reflexivity.
Defined.

(** ** The ingestion run *)

Lemma trace_emit (e : effect) (st : run_state) :
  trace (emit e st) = (trace st ++ [e])%list.
Proof. reflexivity. Qed.

Lemma db_emit (e : effect) (st : run_state) : db (emit e st) = db st.
Proof. reflexivity. Qed.

Lemma store_returns (w : world) (u : string) (info : repo_info) (d : database) :
  store_healthy w ->
  exists d' id, store_repository w u info d = (d', Return id).
Proof.
  intros Hw. destruct (select_by_full_name (full_name info) d) as [r |] eqn:Hsel.
  - exists d, (row_id r). now apply store_existing.
  - exists (insert_row u info d), (next_id d). now apply store_new.
Qed.

Lemma items_effects_app (w : world) (total : Z) (l1 l2 : list starred_repo) :
  forall k t1 t2,
    items_effects w total k l1 t1 ->
    items_effects w total (k + List.length l1) l2 t2 ->
    items_effects w total k (l1 ++ l2) (t1 ++ t2)%list.
Proof.
  induction l1 as [| repo l1 IH]; intros k t1 t2 H1 H2.
  - inversion H1; subst. simpl in *. now rewrite Nat.add_0_r in H2.
  - inversion H1 as [| k' repo' rest here later Hhere Hlater]; subst.
    simpl. rewrite <- app_assoc. constructor; [exact Hhere |].
    apply IH; [exact Hlater |].
    simpl in H2. now rewrite Nat.add_succ_r in H2.
Qed.




Section Undisturbed.

Variable w : world.
Variable username : string.
Variable pages : list (list starred_repo).
Variable total : Z.
Hypothesis Hrun : undisturbed w username pages total.

Lemma process_repo_undisturbed (repo : starred_repo) (st : run_state)
    (processed : list repo_info) :
  readme_returns w repo = true ->
  exists st' here,
    process_repo w username total repo st processed
    = (st', Return (processed ++ [info_of w repo])%list) /\
    trace st' = (trace st ++ here)%list /\
    item_effects w total (List.length processed) repo here.
Proof.
  unfold readme_returns, info_of, process_repo. intros Hret.
  pose proof (item_skipped w total (List.length processed) repo) as Hskip.
  pose proof (item_stored w total (List.length processed) repo) as Hstore.
  unfold readme_of in *.
  destruct (fetch_readme w (sr_full_name repo)) as [rc | e]; [| discriminate].
  destruct (readme_truthy rc) eqn:Htruthy.
  - destruct (store_returns w username (make_info repo rc)
                (db (emit (ReadmeFetched (sr_full_name repo))
                       (emit (Sent (Progress (sr_full_name repo)
                                      (List.length processed) total)) st)))
                (und_store _ _ _ _ Hrun)) as (d' & id & Hst).
    rewrite Hst. eexists. eexists. split; [reflexivity |]. split.
    + simpl. rewrite <- !app_assoc. simpl. reflexivity.
    + now apply Hstore.
  - eexists. eexists. split; [reflexivity |]. split.
    + simpl. rewrite <- app_assoc. simpl. reflexivity.
    + now apply Hskip.
Qed.

Lemma process_page_undisturbed (items : list starred_repo) :
  forall (st : run_state) (processed : list repo_info),
    forallb (readme_returns w) items = true ->
    exists st' tr,
      process_page w username total items st processed
      = (st', Return (processed ++ map (info_of w) items)%list) /\
      trace st' = (trace st ++ tr)%list /\
      items_effects w total (List.length processed) items tr.
Proof.
  induction items as [| repo rest IH]; intros st processed Hall.
  - exists st, []. simpl. rewrite !app_nil_r. repeat split. constructor.
  - simpl in Hall. apply andb_true_iff in Hall as [Hrepo Hrest].
    destruct (process_repo_undisturbed repo st processed Hrepo)
      as (st1 & here & Hstep & Htr1 & Hhere).
    destruct (IH st1 (processed ++ [info_of w repo])%list Hrest)
      as (st2 & later & Hsteps & Htr2 & Hlater).
    exists st2, (here ++ later)%list. simpl. rewrite Hstep, Hsteps. split.
    + now rewrite <- app_assoc.
    + split; [now rewrite Htr2, Htr1, app_assoc |].
      constructor; [exact Hhere |].
      rewrite length_app in Hlater. simpl in Hlater.
      now rewrite Nat.add_1_r in Hlater.
Qed.

Lemma page_at (done rest : list (list starred_repo)) :
  pages = (done ++ rest)%list ->
  star_list w username (S (List.length done)) per_page
  = Return {| page_items := hd [] rest;
              page_has_next := (1 <? List.length rest)%nat |}.
Proof.
  intros Hsplit. rewrite (und_pages _ _ _ _ Hrun). unfold paged_source.
  simpl. rewrite Nat.sub_0_r. f_equal. f_equal.
  - subst pages. rewrite app_nth2, Nat.sub_diag by lia. now destruct rest.
  - subst pages. rewrite length_app.
    destruct (1 <? List.length rest)%nat eqn:H1.
    + apply Nat.ltb_lt in H1. apply Nat.leb_le. lia.
    + apply Nat.ltb_ge in H1. apply Nat.leb_gt. lia.
Qed.

Lemma walk_pages_undisturbed (rest : list (list starred_repo)) :
  forall (done : list (list starred_repo)) (fuel : nat) (st : run_state)
         (processed : list repo_info),
    pages = (done ++ rest)%list ->
    (List.length rest < fuel)%nat ->
    forallb nonempty rest = true ->
    forallb (readme_returns w) (concat rest) = true ->
    exists st' tr,
      walk_pages fuel w username total (S (List.length done)) st processed
      = Some (st', Return (processed ++ map (info_of w) (concat rest))%list) /\
      trace st' = (trace st ++ tr)%list /\
      items_effects w total (List.length processed) (concat rest) tr.
Proof.
  induction rest as [| pg rest' IH];
    intros done fuel st processed Hsplit Hfuel Hne Hall;
    (destruct fuel as [| fuel']; [simpl in Hfuel; lia |]);
    simpl walk_pages; rewrite (page_at done _ Hsplit);
    cbn [hd page_items page_has_next].
  - exists st, []. simpl. rewrite !app_nil_r. repeat split. constructor.
  - apply andb_true_iff in Hne as [Hpg Hne'].
    cbn [concat] in Hall. rewrite forallb_app in Hall.
    apply andb_true_iff in Hall as [Hall1 Hall2].
    destruct (process_page_undisturbed pg st processed Hall1)
      as (st1 & tr1 & Hstep & Htr1 & Heff1).
    destruct pg as [| repo pg']; [discriminate |].
    cbv iota. simpl process_page in Hstep. rewrite Hstep.
    destruct rest' as [| pg2 rest''].
    + simpl. exists st1, tr1. rewrite !app_nil_r.
      split; [reflexivity |]. split; [exact Htr1 | exact Heff1].
    + replace (1 <? List.length ((repo :: pg') :: pg2 :: rest''))%nat with true
        by (symmetry; apply Nat.ltb_lt; simpl; lia).
      destruct (IH (done ++ [repo :: pg'])%list fuel' st1
                  (processed ++ map (info_of w) (repo :: pg'))%list)
        as (st2 & tr2 & Hwalk & Htr2 & Heff2).
      * now rewrite <- app_assoc.
      * simpl in *. lia.
      * exact Hne'.
      * exact Hall2.
      * rewrite length_app, Nat.add_1_r in Hwalk. rewrite Hwalk.
        exists st2, (tr1 ++ tr2)%list. cbn [concat]. split.
        { now rewrite <- app_assoc, <- map_app. }
        split; [now rewrite Htr2, Htr1, app_assoc |].
        apply items_effects_app; [exact Heff1 |].
        rewrite length_app, length_map in Heff2. exact Heff2.
Qed.

(** A run that nothing disturbs returns, whatever fuel exceeds the number of
    pages: every item is in the list it returns, in source order, and its
    trace is the effects of the items followed by the terminal event. *)
Lemma run_undisturbed (fuel : nat) (st : run_state) :
  (List.length pages < fuel)%nat ->
  exists st' tr,
    fetch_and_process_user_stars fuel w username st
    = Some (st',
            Return {| github_username := username;
                      repos_processed := List.length (concat pages);
                      repositories := map (info_of w) (concat pages);
                      status := "success" |}) /\
    trace st' = (trace st ++ tr ++ [Sent Complete])%list /\
    items_effects w total 0 (concat pages) tr.
Proof.
  intros Hfuel. unfold fetch_and_process_user_stars.
  rewrite (und_total _ _ _ _ Hrun).
  destruct (walk_pages_undisturbed pages [] fuel st [] eq_refl Hfuel
              (und_nonempty _ _ _ _ Hrun) (und_readme _ _ _ _ Hrun))
    as (st1 & tr & Hwalk & Htr & Heff).
  simpl in Hwalk. rewrite Hwalk.
  exists (emit (Sent Complete) st1), tr. split.
  - now rewrite length_map.
  - split; [| exact Heff]. rewrite trace_emit, Htr. now rewrite <- app_assoc.
Qed.

End Undisturbed.

Lemma two_stars_undisturbed : undisturbed two_stars "u" two_pages 2.
Proof.
  constructor.
  - reflexivity.
  - intros p n. reflexivity.
  - reflexivity.
  - vm_compute. reflexivity.
  - repeat split.
Qed.

(** C2, as stated, fails: of two starred repositories one has no README, and
    the run still reports two processed repositories. *)
Lemma C2_absent_readme_is_counted :
  exists st agg,
    fetch_and_process_user_stars 3 two_stars "u" fresh = Some (st, Return agg) /\
    List.length (filter (readme_present two_stars) (concat two_pages)) = 1%nat /\
    repos_processed agg = 2%nat /\
    repos_processed agg
    <> List.length (filter (readme_present two_stars) (concat two_pages)).
Proof.
  eexists. eexists. split; [vm_compute; reflexivity |].
  split; [vm_compute; reflexivity |].
  split; [reflexivity | vm_compute; discriminate].
Qed.

(** C2, amended: a run that completes over a paginated source reports as
    [repos_processed] the number of items it walked, with or without README,
    which is the length of the per-item list it returns. *)
Theorem C2_repos_processed_counts_every_item
    (w : world) (username : string) (pages : list (list starred_repo))
    (total : Z) (fuel : nat) (st : run_state)
    (Hrun : undisturbed w username pages total)
    (Hfuel : (List.length pages < fuel)%nat) :
  exists st' agg,
    fetch_and_process_user_stars fuel w username st = Some (st', Return agg) /\
    repos_processed agg = List.length (concat pages) /\
    repos_processed agg = List.length (repositories agg) /\
    repositories agg = map (info_of w) (concat pages).
Proof.
  destruct (run_undisturbed w username pages total Hrun fuel st Hfuel)
    as (st' & tr & Hres & _).
  eexists. eexists. split; [exact Hres |]. simpl.
  rewrite length_map. repeat split.
Qed.

Lemma C2_repos_processed_counts_every_item_witness :
  exists st' agg,
    fetch_and_process_user_stars 3 two_stars "u" fresh = Some (st', Return agg) /\
    repos_processed agg = List.length (concat two_pages) /\
    repos_processed agg = List.length (repositories agg) /\
    repositories agg = map (info_of two_stars) (concat two_pages).
Proof.
  apply (C2_repos_processed_counts_every_item two_stars "u" two_pages 2 3 fresh).
  - exact two_stars_undisturbed.
  - simpl. lia.
Defined.



(** C10: an item whose README request succeeds with a text that decodes to
    the empty text is handled as an item without README: its progress event
    and its README fetch are the only effects, the datastore is untouched,
    and the item joins the processed list; the state it leaves is the one an
    absent README leaves. *)
Theorem C10_empty_readme_counts_as_absent
    (w : world) (username : string) (total : Z) (repo : starred_repo)
    (st : run_state) (processed : list repo_info) (resp : readme_response)
    (Hreply : readme_api w (sr_full_name repo) = Return resp)
    (Hok : status_code resp = 200)
    (Hempty : decode_readme resp = Return EmptyString) :
  fetch_readme w (sr_full_name repo) = Return (Some EmptyString) /\
  exists st',
    process_repo w username total repo st processed
    = (st', Return (processed ++ [make_info repo (Some EmptyString)])%list) /\
    db st' = db st /\
    trace st'
    = (trace st ++
         [Sent (Progress (sr_full_name repo) (List.length processed) total);
          ReadmeFetched (sr_full_name repo)])%list /\
    forall w0,
      fetch_readme w0 (sr_full_name repo) = Return None ->
      process_repo w0 username total repo st processed
      = (st', Return (processed ++ [make_info repo None])%list).
Proof.
  assert (Hf : fetch_readme w (sr_full_name repo) = Return (Some EmptyString)).
  { unfold fetch_readme. rewrite Hreply. simpl. rewrite Hok. simpl.
    now rewrite Hempty. }
  split; [exact Hf |]. unfold process_repo. rewrite Hf. simpl.
  eexists. split; [reflexivity |]. split; [reflexivity |]. split.
  - simpl. now rewrite <- app_assoc.
  - intros w0 H0. now rewrite H0.
Qed.

Lemma C10_empty_readme_counts_as_absent_witness :
  fetch_readme (with_readme (readme_for "ada/engine" EmptyString) quiet)
    (sr_full_name (star "ada" "engine")) = Return (Some EmptyString) /\
  exists st',
    process_repo (with_readme (readme_for "ada/engine" EmptyString) quiet)
      "u" 2 (star "ada" "engine") fresh []
    = (st', Return ([] ++ [make_info (star "ada" "engine") (Some EmptyString)])%list) /\
    db st' = db fresh /\
    trace st'
    = (trace fresh ++
         [Sent (Progress (sr_full_name (star "ada" "engine")) 0 2);
          ReadmeFetched (sr_full_name (star "ada" "engine"))])%list /\
    forall w0,
      fetch_readme w0 (sr_full_name (star "ada" "engine")) = Return None ->
      process_repo w0 "u" 2 (star "ada" "engine") fresh []
      = (st', Return ([] ++ [make_info (star "ada" "engine") None])%list).
Proof.
  apply (C10_empty_readme_counts_as_absent
           (with_readme (readme_for "ada/engine" EmptyString) quiet) "u" 2
           (star "ada" "engine") fresh []
           {| status_code := 200;
              json_body := Return (VDict [("content", VStr EmptyString)]) |});
    reflexivity.
Defined.

(** ** Context rendering *)

Lemma index_raises_index_error {A : Type} (l : list A) (i : nat) (e : exn) :
  Text.index l i = Raise e -> exn_kind e = IndexError.
Proof.
  unfold Text.index. destruct (nth_error l i); [discriminate |].
  intros H. now inversion H.
Qed.

Lemma split1_first (sep s : string) :
  exists a, Text.index (Text.split1 sep s) 0 = Return a.
Proof.
  unfold Text.split1. destruct (Text.cut sep s) as [[a b] |]; eexists; reflexivity.
Qed.

Lemma split1_second_missing (sep s : string) :
  Text.contains sep s = false ->
  exists e, Text.index (Text.split1 sep s) 1 = Raise e.
Proof.
  unfold Text.contains, Text.split1.
  destruct (Text.cut sep s) as [[a b] |]; [discriminate |].
  intros _. eexists. reflexivity.
Qed.

Lemma parse_entry_raises_index_error (t : string) (e : exn) :
  parse_entry t = Raise e -> exn_kind e = IndexError.
Proof.
  unfold parse_entry.
  repeat match goal with
         | |- context [bind (Text.index ?l ?i) _] =>
             let H := fresh "H" in
             destruct (Text.index l i) eqn:H; simpl;
             [| intros Hr; inversion Hr; subst;
                now apply index_raises_index_error in H]
         end.
  discriminate.
Qed.

Lemma parse_entry_missing (t : string) :
  missing_marker t -> exists e, parse_entry t = Raise e.
Proof.
  unfold parse_entry. intros [Hn | [Hu | Hc]].
  - destruct (split1_second_missing _ _ Hn) as [e He]. rewrite He.
    eexists. reflexivity.
  - destruct (Text.index (Text.split1 "name:" t) 1) as [a |];
      [| eexists; reflexivity].
    simpl. destruct (split1_first "url:" a) as [b Hb]. rewrite Hb. simpl.
    destruct (split1_second_missing _ _ Hu) as [e He]. rewrite He.
    eexists. reflexivity.
  - destruct (Text.index (Text.split1 "name:" t) 1) as [a |];
      [| eexists; reflexivity].
    simpl. destruct (split1_first "url:" a) as [b Hb]. rewrite Hb. simpl.
    destruct (Text.index (Text.split1 "url:" t) 1) as [c |];
      [| eexists; reflexivity].
    simpl. destruct (split1_first "content:" c) as [d Hd]. rewrite Hd. simpl.
    destruct (split1_second_missing _ _ Hc) as [e He]. rewrite He.
    eexists. reflexivity.
Qed.

(** The loop never raises: it returns the lines of the entries that parse and
    the warnings of the others. *)
Lemma render_entries_total (repos : list (string * spec_float)) :
  forall context warnings,
    render_entries repos context warnings
    = Return ((context ++ lines_of repos)%list,
              (warnings ++ warnings_of repos)%list).
Proof.
  induction repos as [| [t score] rest IH]; intros context warnings; simpl.
  - now rewrite !app_nil_r.
  - destruct (parse_entry t) as [parts | e] eqn:Hp.
    + rewrite IH. now rewrite <- app_assoc.
    + rewrite (parse_entry_raises_index_error _ _ Hp).
      rewrite IH. now rewrite <- app_assoc.
Qed.

Lemma format_repo_context_total (repos : list (string * spec_float))
    (query : string) :
  format_repo_context repos query
  = Return (Text.join Text.newline
              ((header query :: lines_of repos) ++ [note])%list,
            warnings_of repos).
Proof.
  unfold format_repo_context. rewrite render_entries_total. reflexivity.
Qed.

Lemma lines_of_app (l1 l2 : list (string * spec_float)) :
  lines_of (l1 ++ l2) = (lines_of l1 ++ lines_of l2)%list.
Proof.
  induction l1 as [| [t s] l1 IH]; simpl; [reflexivity |].
  destruct (parse_entry t); simpl; now rewrite IH.
Qed.

Lemma warnings_of_app (l1 l2 : list (string * spec_float)) :
  warnings_of (l1 ++ l2) = (warnings_of l1 ++ warnings_of l2)%list.
Proof.
  induction l1 as [| [t s] l1 IH]; simpl; [reflexivity |].
  destruct (parse_entry t); simpl; now rewrite IH.
Qed.

(** C8: an entry that lacks one of the three markers makes
    [format_repo_context] log a warning and nothing else: the call returns,
    and the text it returns is the text rendered without that entry, so the
    lines of the other entries keep their number, content and order. *)
Theorem C8_malformed_entry_is_dropped
    (before after : list (string * spec_float)) (bad : string)
    (score : spec_float) (query : string)
    (Hbad : missing_marker bad) :
  exists text earlier later,
    format_repo_context (before ++ (bad, score) :: after) query
    = Return (text, (earlier ++ malformed bad :: later)%list) /\
    format_repo_context (before ++ after) query
    = Return (text, (earlier ++ later)%list).
Proof.
  destruct (parse_entry_missing bad Hbad) as [e He].
  exists (Text.join Text.newline
            ((header query :: lines_of (before ++ after)) ++ [note])%list),
    (warnings_of before), (warnings_of after).
  rewrite !format_repo_context_total. split.
  - rewrite !lines_of_app, !warnings_of_app. simpl. rewrite He. reflexivity.
  - now rewrite warnings_of_app.
Qed.

Lemma C8_malformed_entry_is_dropped_witness :
  exists text earlier later,
    format_repo_context
      ([(combined "X" "Y" "Z", Float.decimal 873 3)] ++
       ("name: broken content: no link", Float.decimal 5 1)
         :: [(combined "P" "Q" "R", Float.decimal 25 2)]) "q"
    = Return (text,
              (earlier ++ malformed "name: broken content: no link" :: later)%list) /\
    format_repo_context
      ([(combined "X" "Y" "Z", Float.decimal 873 3)] ++
       [(combined "P" "Q" "R", Float.decimal 25 2)]) "q"
    = Return (text, (earlier ++ later)%list).
Proof.
  apply (C8_malformed_entry_is_dropped
           [(combined "X" "Y" "Z", Float.decimal 873 3)]
           [(combined "P" "Q" "R", Float.decimal 25 2)]
           "name: broken content: no link" (Float.decimal 5 1) "q").
  right. left. reflexivity.
Defined.

(** *** Cutting a text at a marker *)

Lemma append_assoc (a b c : string) : (a ++ b) ++ c = a ++ b ++ c.
Proof. induction a as [| x a IH]; simpl; [reflexivity | now rewrite IH]. Qed.

Lemma cut_unfold (sep s : string) :
  Text.cut sep s =
  match Text.drop_prefix sep s with
  | Some rest => Some (EmptyString, rest)
  | None =>
      match s with
      | EmptyString => None
      | String c s' =>
          match Text.cut sep s' with
          | Some (a, b) => Some (String c a, b)
          | None => None
          end
      end
  end.
Proof. destruct s; reflexivity. Qed.

Lemma cut_hit (sep s rest : string) :
  Text.drop_prefix sep s = Some rest -> Text.cut sep s = Some (EmptyString, rest).
Proof. intros H. rewrite cut_unfold. now rewrite H. Qed.

Lemma cut_miss (sep : string) (c : ascii) (s : string) :
  Text.drop_prefix sep (String c s) = None ->
  Text.cut sep (String c s) =
  match Text.cut sep s with
  | Some (a, b) => Some (String c a, b)
  | None => None
  end.
Proof. intros H. rewrite cut_unfold. now rewrite H. Qed.

Lemma drop_prefix_itself (sep t : string) :
  Text.drop_prefix sep (sep ++ t) = Some t.
Proof.
  induction sep as [| a sep IH]; simpl; [now destruct t |].
  now rewrite Ascii.eqb_refl.
Qed.

Lemma cut_none_inv (sep : string) (c : ascii) (s : string) :
  Text.cut sep (String c s) = None ->
  Text.drop_prefix sep (String c s) = None /\ Text.cut sep s = None.
Proof.
  rewrite cut_unfold.
  destruct (Text.drop_prefix sep (String c s)); [discriminate |].
  destruct (Text.cut sep s) as [[a b] |]; [discriminate | now split].
Qed.

Lemma cut_none_nonempty (sep s : string) :
  Text.cut sep s = None -> exists a sep', sep = String a sep'.
Proof.
  destruct sep as [| a sep']; [| intros _; now exists a, sep'].
  rewrite cut_unfold. simpl. discriminate.
Qed.

(** A marker without space never matches across a space. *)
Lemma drop_prefix_before_space (sep : string) :
  spaceless sep = true ->
  forall s t,
    Text.drop_prefix sep s = None ->
    Text.drop_prefix sep (s ++ String " " t) = None.
Proof.
  induction sep as [| a sep IH]; intros Hsp s t Hs; [discriminate |].
  simpl in Hsp. apply andb_true_iff in Hsp as [Ha Hsp].
  destruct s as [| b s]; simpl in *.
  - destruct (Ascii.eqb a " "); [discriminate | reflexivity].
  - destruct (Ascii.eqb a b); [now apply IH | reflexivity].
Qed.

Lemma drop_prefix_at_space (sep t : string) (a : ascii) (sep' : string) :
  sep = String a sep' -> spaceless sep = true ->
  Text.drop_prefix sep (String " " t) = None.
Proof.
  intros -> Hsp. simpl in *. apply andb_true_iff in Hsp as [Ha _].
  destruct (Ascii.eqb a " "); [discriminate | reflexivity].
Qed.

(** The first occurrence of a marker after a field that is free of it. *)
Lemma cut_after_free (sep : string) :
  spaceless sep = true ->
  forall x t,
    free_of sep x ->
    Text.cut sep (x ++ String " " (sep ++ t)) = Some (x ++ " ", t).
Proof.
  intros Hsp x t. unfold free_of. induction x as [| c x IH]; intros Hfree.
  - destruct (cut_none_nonempty _ _ Hfree) as (a & sep' & Hsep).
    change (EmptyString ++ String " " (sep ++ t)) with (String " " (sep ++ t)).
    rewrite (cut_miss _ _ _ (drop_prefix_at_space sep _ a sep' Hsep Hsp)).
    now rewrite (cut_hit _ _ _ (drop_prefix_itself sep t)).
  - apply cut_none_inv in Hfree as [Hhere Hlater].
    change (String c x ++ String " " (sep ++ t))
      with (String c (x ++ String " " (sep ++ t))).
    rewrite cut_miss.
    + now rewrite (IH Hlater).
    + apply (drop_prefix_before_space sep Hsp (String c x) _ Hhere).
Qed.

Lemma free_of_app_space (sep : string) :
  spaceless sep = true ->
  forall x y,
    free_of sep x -> free_of sep y -> free_of sep (x ++ String " " y).
Proof.
  intros Hsp x y. unfold free_of. induction x as [| c x IH]; intros Hx Hy.
  - destruct (cut_none_nonempty _ _ Hx) as (a & sep' & Hsep).
    change (EmptyString ++ String " " y) with (String " " y).
    rewrite (cut_miss _ _ _ (drop_prefix_at_space sep _ a sep' Hsep Hsp)).
    now rewrite Hy.
  - apply cut_none_inv in Hx as [Hhere Hlater].
    change (String c x ++ String " " y) with (String c (x ++ String " " y)).
    rewrite cut_miss.
    + now rewrite (IH Hlater Hy).
    + apply (drop_prefix_before_space sep Hsp (String c x) _ Hhere).
Qed.

(** *** Stripping a padded field *)

Lemma lstrip_length (s : string) :
  (String.length (Text.lstrip s) <= String.length s)%nat.
Proof.
  induction s as [| c s IH]; simpl; [lia |].
  destruct (Text.isspace c); simpl; lia.
Qed.

Lemma lstrip_fixed_app (s t : string) :
  Text.lstrip s = s -> s <> EmptyString -> Text.lstrip (s ++ t) = s ++ t.
Proof.
  destruct s as [| c s]; [congruence |]. simpl. intros Hfix _.
  destruct (Text.isspace c); [| reflexivity].
  pose proof (lstrip_length s) as Hlen. rewrite Hfix in Hlen. simpl in Hlen. lia.
Qed.

Lemma rstrip_app_space (s : string) :
  Text.rstrip (s ++ " ") = Text.rstrip s.
Proof. induction s as [| c s IH]; simpl; [reflexivity | now rewrite IH]. Qed.

Lemma strip_padded (s : string) :
  trimmed s -> Text.strip (String " " (s ++ " ")) = s.
Proof.
  intros [Hl Hr]. unfold Text.strip.
  change (Text.lstrip (String " " (s ++ " "))) with (Text.lstrip (s ++ " ")).
  destruct s as [| c s]; [reflexivity |].
  rewrite lstrip_fixed_app by (exact Hl || discriminate).
  now rewrite rstrip_app_space.
Qed.

Lemma strip_left_padded (s : string) :
  trimmed s -> Text.strip (String " " s) = s.
Proof.
  intros [Hl Hr]. unfold Text.strip.
  change (Text.lstrip (String " " s)) with (Text.lstrip s).
  now rewrite Hl.
Qed.

(** *** The entry of the specification *)

Lemma parse_combined (x y z : string) :
  trimmed x -> trimmed y -> trimmed z ->
  free_of "url:" x -> free_of "content:" x -> free_of "content:" y ->
  parse_entry (combined x y z) = Return (x, y, z).
Proof.
  intros Hx Hy Hz Hxu Hxc Hyc. unfold parse_entry, combined.
  assert (Hname :
    Text.split1 "name:" ("name: " ++ x ++ " url: " ++ y ++ " content: " ++ z)
    = [EmptyString; String " " (x ++ " url: " ++ y ++ " content: " ++ z)])
    by reflexivity.
  assert (Hname_part :
    Text.split1 "url:" (String " " (x ++ " url: " ++ y ++ " content: " ++ z))
    = [String " " (x ++ " "); String " " (y ++ " content: " ++ z)]).
  { unfold Text.split1.
    change (String " " (x ++ " url: " ++ y ++ " content: " ++ z))
      with (String " " x
              ++ String " " ("url:" ++ String " " (y ++ " content: " ++ z))).
    rewrite cut_after_free; [reflexivity | reflexivity |].
    unfold free_of in *. rewrite cut_unfold. simpl. now rewrite Hxu. }
  assert (Hurl :
    Text.split1 "url:" ("name: " ++ x ++ " url: " ++ y ++ " content: " ++ z)
    = ["name: " ++ x ++ " "; String " " (y ++ " content: " ++ z)]).
  { unfold Text.split1.
    change ("name: " ++ x ++ " url: " ++ y ++ " content: " ++ z)
      with (("name: " ++ x)
              ++ String " " ("url:" ++ String " " (y ++ " content: " ++ z))).
    rewrite cut_after_free; [now rewrite append_assoc | reflexivity |].
    unfold free_of in *. simpl. now rewrite Hxu. }
  assert (Hurl_part :
    Text.split1 "content:" (String " " (y ++ " content: " ++ z))
    = [String " " (y ++ " "); String " " z]).
  { unfold Text.split1.
    change (String " " (y ++ " content: " ++ z))
      with (String " " y ++ String " " ("content:" ++ String " " z)).
    rewrite cut_after_free; [reflexivity | reflexivity |].
    unfold free_of in *. rewrite cut_unfold. simpl. now rewrite Hyc. }
  assert (Hcontent :
    Text.split1 "content:"
      ("name: " ++ x ++ " url: " ++ y ++ " content: " ++ z)
    = ["name: " ++ x ++ " url: " ++ y ++ " "; String " " z]).
  { unfold Text.split1.
    replace ("name: " ++ x ++ " url: " ++ y ++ " content: " ++ z)
      with ((("name: " ++ x) ++ String " " ("url: " ++ y))
              ++ String " " ("content:" ++ String " " z))
      by (now rewrite !append_assoc).
    rewrite cut_after_free.
    - now rewrite !append_assoc.
    - reflexivity.
    - apply free_of_app_space; [reflexivity | |];
        unfold free_of in *; simpl; [now rewrite Hxc | now rewrite Hyc]. }
  rewrite Hname. unfold Text.index at 1. cbn [nth_error bind].
  rewrite Hname_part. unfold Text.index at 1. cbn [nth_error bind].
  rewrite Hurl. unfold Text.index at 1. cbn [nth_error bind].
  rewrite Hurl_part. unfold Text.index at 1. cbn [nth_error bind].
  rewrite Hcontent. unfold Text.index at 1. cbn [nth_error bind].
  rewrite (strip_padded x Hx), (strip_padded y Hy), (strip_left_padded z Hz).
  reflexivity.
Qed.

Lemma relevance_of_0873 :
  Float.format_1f (Float.mul (Float.decimal 873 3) (Float.of_Z 100)) = "87.3".
Proof. vm_compute. reflexivity. Qed.

(** C9: for fields [x], [y], [z] without surrounding whitespace and free of
    the markers that follow them, the entry with combined text
    [name: x url: y content: z] and score 0.873 is rendered as the line
    [[x](y) - z *Relevance: 87.3%*], so the returned text holds the link with
    its description and the relevance with one decimal. *)
Theorem C9_rendered_line
    (x y z query : string)
    (Hx : trimmed x) (Hy : trimmed y) (Hz : trimmed z)
    (Hxu : free_of "url:" x) (Hxc : free_of "content:" x)
    (Hyc : free_of "content:" y) :
  exists text,
    format_repo_context [(combined x y z, Float.decimal 873 3)] query
    = Return (text, []) /\
    text
    = Text.join Text.newline
        [header query;
         "[" ++ x ++ "](" ++ y ++ ") - " ++ z ++ " *Relevance: 87.3%*";
         note] /\
    occurs_in ("[" ++ x ++ "](" ++ y ++ ") - " ++ z) text /\
    occurs_in "Relevance: 87.3%" text.
Proof.
  eexists. split; [| split; [reflexivity |]].
  - rewrite format_repo_context_total. simpl lines_of. simpl warnings_of.
    rewrite (parse_combined x y z Hx Hy Hz Hxu Hxc Hyc).
    unfold render_line. rewrite relevance_of_0873. reflexivity.
  - split.
    + exists (header query ++ Text.newline),
        (" *Relevance: 87.3%*" ++ Text.newline ++ note).
      cbn [Text.join]. now rewrite !append_assoc.
    + exists (header query ++ Text.newline
                ++ "[" ++ x ++ "](" ++ y ++ ") - " ++ z ++ " *"),
        ("*" ++ Text.newline ++ note).
      cbn [Text.join]. now rewrite !append_assoc.
Qed.

Lemma C9_rendered_line_witness :
  exists text,
    format_repo_context [(combined "X" "Y" "Z", Float.decimal 873 3)]
      "timescale"
    = Return (text, []) /\
    text
    = Text.join Text.newline
        [header "timescale";
         "[" ++ "X" ++ "](" ++ "Y" ++ ") - " ++ "Z" ++ " *Relevance: 87.3%*";
         note] /\
    occurs_in ("[" ++ "X" ++ "](" ++ "Y" ++ ") - " ++ "Z") text /\
    occurs_in "Relevance: 87.3%" text.
Proof.
  apply (C9_rendered_line "X" "Y" "Z" "timescale");
    try (split; reflexivity); reflexivity.
Defined.

(** * Further properties of the code *)

Import MoreProps MoreScenario.

(** ** provider.py *)

Lemma rstrip_idempotent (s : string) :
  Text.rstrip (Text.rstrip s) = Text.rstrip s.
Proof.
  induction s as [| c s IH]; [reflexivity |]. simpl.
  destruct (Text.rstrip s) as [| d r] eqn:Hr.
  - destruct (Text.isspace c) eqn:Hc; simpl; [reflexivity | now rewrite Hc].
  - change (Text.rstrip (String c (String d r)))
      with (match Text.rstrip (String d r) with
            | EmptyString =>
                if Text.isspace c then EmptyString else String c EmptyString
            | String d' r' => String c (String d' r')
            end).
    now rewrite IH.
Qed.

Lemma lstrip_head (s : string) :
  Text.lstrip s = EmptyString \/
  exists c r, Text.lstrip s = String c r /\ Text.isspace c = false.
Proof.
  induction s as [| c s IH]; simpl; [now left |].
  destruct (Text.isspace c) eqn:Hc; [exact IH |].
  right. now exists c, s.
Qed.

Lemma rstrip_keeps_head (c : ascii) (r : string) :
  Text.isspace c = false -> exists r', Text.rstrip (String c r) = String c r'.
Proof.
  intros Hc. simpl. destruct (Text.rstrip r) as [| d r'].
  - rewrite Hc. now exists EmptyString.
  - now exists (String d r').
Qed.

Lemma strip_is_trimmed (s : string) : trimmed (Text.strip s).
Proof.
  unfold trimmed, Text.strip. split; [| apply rstrip_idempotent].
  destruct (lstrip_head s) as [Hempty | (c & r & Hs & Hc)].
  - now rewrite Hempty.
  - rewrite Hs. destruct (rstrip_keeps_head c r Hc) as [r' Hr].
    rewrite Hr. simpl. now rewrite Hc.
Qed.

Lemma strip_method_strips (v : pyval) (t : string) :
  strip_method v = Return t -> exists s, t = Text.strip s.
Proof.
  destruct v; simpl; try discriminate. intros H. inversion H. now eexists.
Qed.

Lemma normalize_returns_stripped (response : pyval) (r : ChatResponse) :
  ollama_normalize response = Return r ->
  exists s, message r = [("assistant", Text.strip s)].
Proof.
  destruct response as [| b | z | f | s | l | d]; simpl; try discriminate.
  destruct (lookup "message" d) as [m |]; [| discriminate].
  destruct m as [| b | z | f | s | l | dm]; simpl; try discriminate.
  match goal with
  | |- bind (strip_method ?v) _ = _ -> _ =>
      destruct (strip_method v) as [t | e] eqn:Ht; simpl; [| discriminate]
  end.
  intros H. inversion H. simpl.
  destruct (strip_method_strips _ _ Ht) as [s ->]. now exists s.
Qed.



(** X1: whichever back end answers, a chat completion that returns carries
    exactly one entry, from [assistant] to a text without whitespace at
    either end. *)
Theorem X1_answer_is_one_trimmed_text
    (w : world) (p : provider) (messages : list ChatMessage) (max_tokens : Z)
    (temperature : spec_float) (r : ChatResponse)
    (Hret : chat_completion w p messages max_tokens temperature = Return r) :
  exists text, message r = [("assistant", text)] /\ trimmed text.
Proof.
  destruct p as [key base | em cm]; simpl in Hret.
  - unfold openai_chat_completion in Hret.
    destruct (openai_chat w _ max_tokens temperature) as [choices | e];
      simpl in Hret; [| discriminate].
    destruct (Text.index choices 0) as [[text |] | e]; simpl in Hret;
      try discriminate.
    inversion Hret. simpl. eexists. split; [reflexivity |].
    apply strip_is_trimmed.
  - unfold ollama_chat_completion in Hret.
    destruct (ollama_chat w cm _) as [response | e]; simpl in Hret;
      [| discriminate].
    destruct (normalize_returns_stripped _ _ Hret) as [s Hs].
    exists (Text.strip s). split; [exact Hs | apply strip_is_trimmed].
Qed.

Lemma X1_answer_is_one_trimmed_text_witness :
  exists text,
    message {| message := [("assistant", "hi")];
               raw_response := RawOllama (nested_shape "  hi ") |}
    = [("assistant", text)] /\ trimmed text.
Proof.
  apply (X1_answer_is_one_trimmed_text
           (with_ollama_reply (Return (nested_shape "  hi ")) quiet)
           (OllamaProvider None (Some "llama3")) one_message 1000
           (Float.decimal 1 1)).
  reflexivity.
Defined.

(** X2: the local chat back end receives the messages in order with their
    content untouched and with one of the three roles each: a known role is
    kept, any other role is sent as [assistant]. *)
Theorem X2_ollama_roles (messages : list ChatMessage) :
  map snd (map ollama_format messages) = map content messages /\
  Forall (fun m => known_role (fst m) = true) (map ollama_format messages) /\
  (forall msg, known_role (role msg) = true ->
     ollama_format msg = (role msg, content msg)) /\
  (forall msg, known_role (role msg) = false ->
     ollama_format msg = ("assistant", content msg)).
Proof.
  split; [| split; [| split]].
  - induction messages as [| m l IH]; simpl; [reflexivity |].
    rewrite IH. unfold ollama_format.
    now destruct (String.eqb (role m) "system").
  - induction messages as [| m l IH]; simpl; constructor; [| exact IH].
    unfold ollama_format.
    destruct (String.eqb (role m) "system"); [reflexivity |].
    now destruct (String.eqb (role m) "user").
  - intros msg. unfold known_role, ollama_format.
    destruct (String.eqb_spec (role msg) "system") as [-> | _]; [reflexivity |].
    destruct (String.eqb_spec (role msg) "user") as [-> | _]; [reflexivity |].
    destruct (String.eqb_spec (role msg) "assistant") as [-> | _];
      [reflexivity | discriminate].
  - intros msg. unfold known_role, ollama_format.
    destruct (String.eqb (role msg) "system"); [discriminate |].
    destruct (String.eqb (role msg) "user"); [discriminate | reflexivity].
Qed.

(** X3: the default provider is chosen by [AI_PROVIDER] without regard to
    letter case, [ollama] when the variable is unset; the local provider is
    always built, with the model names of the environment or their defaults,
    and a kind that is neither of the two is refused under its lower-case
    name. *)
Theorem X3_default_provider (w : world) :
  (getenv w "AI_PROVIDER" = None \/
   Text.lower (getenv_default w "AI_PROVIDER" "ollama") = "ollama" ->
   initialize_ai_provider w
   = Return (OllamaProvider
               (Some (getenv_default w "OLLAMA_EMBED_MODEL" "nomic-embed-text"))
               (Some (getenv_default w "OLLAMA_CHAT_MODEL" "llama3")))) /\
  (Text.lower (getenv_default w "AI_PROVIDER" "ollama") <> "ollama" ->
   Text.lower (getenv_default w "AI_PROVIDER" "ollama") <> "openai" ->
   initialize_ai_provider w
   = Raise (mk_exn ValueError
              ("Unsupported AI provider: "
                 ++ Text.lower (getenv_default w "AI_PROVIDER" "ollama")))).
Proof.
  unfold initialize_ai_provider. split.
  - intros H.
    assert (Hk : Text.lower (getenv_default w "AI_PROVIDER" "ollama") = "ollama").
    { destruct H as [H | H]; [| exact H].
      unfold getenv_default. now rewrite H. }
    rewrite Hk. reflexivity.
  - intros Hno Hnx.
    destruct (String.eqb_spec
                (Text.lower (getenv_default w "AI_PROVIDER" "ollama")) "openai");
      [contradiction |].
    destruct (String.eqb_spec
                (Text.lower (getenv_default w "AI_PROVIDER" "ollama")) "ollama");
      [contradiction | reflexivity].
Qed.

(** X4: the factory builds a provider only for the kinds [openai] and
    [ollama], whatever their letter case, the hosted one only with an API
    key among its arguments; any other kind raises a [ValueError] that names
    the kind as given, whatever the arguments. *)
Theorem X4_factory_kinds (provider_type : string) (kw : kwargs) :
  (forall p, create_ai_provider provider_type kw = Return p ->
     (Text.lower provider_type = "openai" /\
      exists key, kwarg "api_key" kw = Some (Some key) /\
                  exists base, p = OpenAIProvider key base) \/
     (Text.lower provider_type = "ollama" /\
      exists em cm, p = OllamaProvider em cm)) /\
  (Text.lower provider_type <> "openai" ->
   Text.lower provider_type <> "ollama" ->
   create_ai_provider provider_type kw
   = Raise (mk_exn ValueError ("Unknown provider type: " ++ provider_type))).
Proof.
  unfold create_ai_provider. split.
  - intros p.
    destruct (String.eqb_spec (Text.lower provider_type) "openai") as [Hx | _].
    + destruct (forallb _ _); [| discriminate]. unfold new_openai.
      destruct (unexpected_keyword _ kw); [discriminate |].
      destruct (kwarg "api_key" kw) as [[key |] |]; try discriminate.
      intros H. inversion H. left. split; [exact Hx |].
      exists key. split; [reflexivity | now eexists].
    + destruct (String.eqb_spec (Text.lower provider_type) "ollama")
        as [Ho | _]; [| discriminate].
      unfold new_ollama. destruct (unexpected_keyword _ kw); [discriminate |].
      intros H. inversion H. right. split; [exact Ho |].
      eexists. eexists. reflexivity.
  - intros Hnx Hno.
    destruct (String.eqb_spec (Text.lower provider_type) "openai");
      [contradiction |].
    destruct (String.eqb_spec (Text.lower provider_type) "ollama");
      [contradiction | reflexivity].
Qed.

Lemma embed_loop_returns (b : Embedding.backends) (m : option string)
    (texts : list string) :
  forall acc out,
    Embedding.embed_loop b m texts acc = Return out ->
    exists embs,
      out = (acc ++ embs)%list /\
      Forall2 (fun t e => Embedding.embed_one b m t = Return e) texts embs.
Proof.
  induction texts as [| t rest IH]; intros acc out H; simpl in H.
  - inversion H. exists []. split; [now rewrite app_nil_r | constructor].
  - destruct (Embedding.embed_one b m t) as [e | x] eqn:He; simpl in H;
      [| discriminate].
    destruct (IH _ _ H) as (embs & Hout & Hall).
    exists (e :: embs). split; [now rewrite Hout, <- app_assoc |].
    now constructor.
Qed.

Lemma embed_loop_fails (b : Embedding.backends) (m : option string)
    (pre : list string) (t : string) (post : list string) (e : exn) :
  Forall (fun x => returns (Embedding.embed_one b m x) = true) pre ->
  Embedding.embed_one b m t = Raise e ->
  forall acc, Embedding.embed_loop b m (pre ++ t :: post) acc = Raise e.
Proof.
  intros Hpre Ht. induction Hpre as [| x pre Hx Hpre IH]; intros acc; simpl.
  - now rewrite Ht.
  - destruct (Embedding.embed_one b m x); [apply IH | discriminate].
Qed.

(** X5: the local back end is asked for one embedding per text, in order: a
    call that returns gives as many embeddings as texts, the i-th being the
    [embedding] entry of the reply to the i-th text; and the first text whose
    request fails, or whose reply has no such entry, decides the exception
    raised. *)
Theorem X5_one_embedding_per_text
    (b : Embedding.backends) (m : option string) (texts : list string) :
  (forall embs,
     Embedding.ollama_generate_embeddings b m texts = Return embs ->
     List.length embs = List.length texts /\
     Forall2 (fun t e => Embedding.embed_one b m t = Return e) texts embs) /\
  (forall pre t post e,
     texts = (pre ++ t :: post)%list ->
     Forall (fun x => returns (Embedding.embed_one b m x) = true) pre ->
     Embedding.embed_one b m t = Raise e ->
     Embedding.ollama_generate_embeddings b m texts = Raise e).
Proof.
  unfold Embedding.ollama_generate_embeddings. split.
  - intros embs H. destruct (embed_loop_returns _ _ _ _ _ H) as (l & -> & Hall).
    simpl. split; [symmetry; apply (Forall2_length Hall) | exact Hall].
  - intros pre t post e -> Hpre Ht. now apply embed_loop_fails.
Qed.

Example embeddings_in_order :
  Embedding.ollama_generate_embeddings counting_backend None ["a"; "abc"]
  = Return [VList [VInt 1]; VList [VInt 3]].
Proof. reflexivity. Qed.

Example embeddings_stop_at_missing_entry :
  Embedding.ollama_generate_embeddings counting_backend None ["a"; "boom"; "abc"]
  = Raise (mk_exn KeyError "'embedding'").
Proof. reflexivity. Qed.

(** ** db.py *)

(** The three ways a call of [store_repository] ends. *)
Lemma store_cases (w : world) (u : string) (info : repo_info) (d : database) :
  (exists e,
     store_repository w u info d = (d, Raise e) /\
     (db_fault w OpConnect = Some e \/
      db_fault w OpConnect = None /\
      exists e0, e = store_error e0 /\
        (db_fault w OpSelect = Some e0 \/ db_fault w OpInsert = Some e0 \/
         db_fault w OpCommit = Some e0))) \/
  (exists r,
     select_by_full_name (full_name info) d = Some r /\
     store_repository w u info d = (d, Return (row_id r))) \/
  (select_by_full_name (full_name info) d = None /\
   store_repository w u info d = (insert_row u info d, Return (next_id d))).
Proof.
  unfold store_repository.
  destruct (db_fault w OpConnect) as [e |] eqn:Hc.
  { left. exists e. split; [reflexivity | now left]. }
  destruct (db_fault w OpSelect) as [e |] eqn:Hs.
  { left. exists (store_error e). split; [reflexivity | right].
    split; [reflexivity |]. exists e. split; [reflexivity | now left]. }
  destruct (select_by_full_name (full_name info) d) as [r |] eqn:Hsel.
  { right. left. exists r. now split. }
  destruct (db_fault w OpInsert) as [e |] eqn:Hi.
  { left. exists (store_error e). split; [reflexivity | right].
    split; [reflexivity |]. exists e. split; [reflexivity | right; now left]. }
  destruct (db_fault w OpCommit) as [e |] eqn:Hk.
  { left. exists (store_error e). split; [reflexivity | right].
    split; [reflexivity |]. exists e. split; [reflexivity | right; now right]. }
  right. right. now split.
Qed.

Lemma store_error_wraps (e : exn) : wrapped_with_context e (store_error e).
Proof.
  exists "Error storing repository and embeddings: ". split; [discriminate |].
  reflexivity.
Qed.

Lemma named_is_found (fn : string) (l : list row) :
  In fn (map row_full_name l) ->
  exists r, find (fun r => String.eqb (row_full_name r) fn) l = Some r.
Proof.
  intros Hin.
  destruct (find (fun r => String.eqb (row_full_name r) fn) l) as [r |] eqn:Hf;
    [now exists r |].
  exfalso. now apply (not_named_of_find_none fn l).
Qed.

(** X6: a call of [store_repository] that raises leaves the table as it
    was; a failure to connect is raised as it is, and a failure of the
    look-up, of the insert or of the commit is raised with the context of the
    store in front of its text. *)
Theorem X6_store_failure_writes_nothing
    (w : world) (u : string) (info : repo_info) (d d' : database) (e : exn)
    (Hfail : store_repository w u info d = (d', Raise e)) :
  d' = d /\
  (db_fault w OpConnect = Some e \/
   db_fault w OpConnect = None /\
   exists e0,
     e = store_error e0 /\ wrapped_with_context e0 e /\
     (db_fault w OpSelect = Some e0 \/ db_fault w OpInsert = Some e0 \/
      db_fault w OpCommit = Some e0)).
Proof.
  destruct (store_cases w u info d)
    as [(e1 & Hst & Hwhy) | [(r & _ & Hst) | (_ & Hst)]];
    rewrite Hst in Hfail; inversion Hfail; subst.
  split; [reflexivity |].
  destruct Hwhy as [Hc | (Hc & e0 & -> & Hop)]; [now left | right].
  split; [exact Hc |]. exists e0.
  split; [reflexivity |]. split; [apply store_error_wraps | exact Hop].
Qed.

Lemma X6_store_failure_writes_nothing_witness :
  one_row_db = one_row_db /\
  (db_fault insert_down OpConnect = Some (store_error server_closed) \/
   db_fault insert_down OpConnect = None /\
   exists e0,
     store_error server_closed = store_error e0 /\
     wrapped_with_context e0 (store_error server_closed) /\
     (db_fault insert_down OpSelect = Some e0 \/
      db_fault insert_down OpInsert = Some e0 \/
      db_fault insert_down OpCommit = Some e0)).
Proof.
  apply (X6_store_failure_writes_nothing insert_down "u"
           (make_info (star "bob" "notes") (Some "text")) one_row_db).
  reflexivity.
Defined.

Lemma store_of_named (w : world) (u : string) (info : repo_info)
    (d : database) :
  In (full_name info) (map row_full_name (repositories_table d)) ->
  fst (store_repository w u info d) = d.
Proof.
  intros Hin.
  destruct (store_cases w u info d)
    as [(e1 & Hst & _) | [(r & _ & Hst) | (Hsel & Hst)]]; rewrite Hst; simpl;
    try reflexivity.
  destruct (named_is_found _ _ Hin) as [r Hr].
  unfold select_by_full_name in Hsel. congruence.
Qed.

(** X7: [store_repository] never changes or removes a row. When a row has
    the qualified name already the table stays as it is, even if the new
    information differs; otherwise the table stays as it is or gains, at its
    end, the one row made of the owner, the information and the next id,
    which is the id returned. *)
Theorem X7_store_is_write_once
    (w : world) (u : string) (info : repo_info) (d : database) :
  (In (full_name info) (map row_full_name (repositories_table d)) ->
   fst (store_repository w u info d) = d) /\
  (fst (store_repository w u info d) = d \/
   store_repository w u info d = (insert_row u info d, Return (next_id d)) /\
   ~ In (full_name info) (map row_full_name (repositories_table d)) /\
   repositories_table (insert_row u info d)
   = (repositories_table d ++
        [{| row_id := next_id d; row_github_username := u;
            row_info := info |}])%list).
Proof.
  destruct (store_cases w u info d)
    as [(e1 & Hst & _) | [(r & _ & Hst) | (Hsel & Hst)]]; rewrite Hst; simpl.
  - split; [reflexivity | now left].
  - split; [reflexivity | now left].
  - split.
    + intros Hin. destruct (named_is_found _ _ Hin) as [r Hr].
      unfold select_by_full_name in Hsel. congruence.
    + right. split; [reflexivity |].
      split; [now apply not_named_of_find_none | reflexivity].
Qed.

Example store_keeps_the_first_readme :
  store_repository quiet "v" (make_info (star "ada" "engine") (Some "changed"))
    one_row_db
  = (one_row_db, Return 1).
Proof. reflexivity. Qed.

Lemma store_keeps_unique_names (w : world) (u : string) (info : repo_info)
    (d : database) :
  unique_names d -> unique_names (fst (store_repository w u info d)).
Proof.
  intros Hu.
  destruct (store_cases w u info d)
    as [(e1 & Hst & _) | [(r & _ & Hst) | (Hsel & Hst)]]; rewrite Hst; simpl;
    try exact Hu.
  unfold unique_names, insert_row. simpl. rewrite map_app. simpl.
  apply NoDup_snoc; [exact Hu | now apply not_named_of_find_none].
Qed.

(** X8: whatever the datastore does, a call of [store_repository] on a
    table with at most one row per qualified name leaves a table with at most
    one row per qualified name. *)
Theorem X8_store_keeps_names_unique
    (w : world) (u : string) (info : repo_info) (d : database)
    (Huniq : unique_names d) :
  unique_names (fst (store_repository w u info d)).
Proof.
  revert Huniq.
  intros Hu.
  destruct (store_cases w u info d)
    as [(e1 & Hst & _) | [(r & _ & Hst) | (Hsel & Hst)]]; rewrite Hst; simpl;
    try exact Hu.
  unfold unique_names, insert_row. simpl. rewrite map_app. simpl.
  apply NoDup_snoc; [exact Hu | now apply not_named_of_find_none].
Qed.

Lemma X8_store_keeps_names_unique_witness :
  unique_names
    (fst (store_repository quiet "u"
            (make_info (star "bob" "notes") (Some "text")) one_row_db)).
Proof.
  apply (X8_store_keeps_names_unique quiet "u"
           (make_info (star "bob" "notes") (Some "text")) one_row_db).
  repeat constructor. simpl. tauto.
Defined.

(** ** ingest.py *)

(** X9: [fetch_readme] hands over a text only from a reply with status 200,
    and the text is then well-formed UTF-8; any other status gives [None]
    without a look at the body; and an exception that leaves the function is
    never one of the [requests] exceptions. *)
Theorem X9_fetch_readme_outcomes (w : world) (repo_full_name : string) :
  (forall text,
     fetch_readme w repo_full_name = Return (Some text) ->
     Codec.utf8_valid text = true /\
     exists resp,
       readme_api w repo_full_name = Return resp /\ status_code resp = 200) /\
  (forall resp,
     readme_api w repo_full_name = Return resp ->
     status_code resp <> 200 ->
     fetch_readme w repo_full_name = Return None) /\
  (forall e,
     fetch_readme w repo_full_name = Raise e -> is_request_exception e = false).
Proof.
  unfold fetch_readme. split; [| split].
  - intros text.
    destruct (readme_api w repo_full_name) as [resp | e]; simpl.
    + destruct (Z.eqb_spec (status_code resp) 200) as [Hok | Hno];
        [| discriminate].
      unfold decode_readme, Codec.decode_utf8.
      destruct (json_body resp) as [body | e]; simpl.
      * destruct (subscript body "content") as [c | e]; simpl.
        -- destruct (Codec.b64decode c) as [bytes | e]; simpl.
           ++ destruct (Codec.utf8_valid bytes) eqn:Hv; simpl.
              ** intros H. inversion H; subst. split; [exact Hv |].
                 now exists resp.
              ** discriminate.
           ++ now destruct (is_request_exception e).
        -- now destruct (is_request_exception e).
      * now destruct (is_request_exception e).
    + now destruct (is_request_exception e).
  - intros resp Hreply Hno. rewrite Hreply. simpl.
    destruct (Z.eqb_spec (status_code resp) 200); [contradiction | reflexivity].
  - intros e.
    match goal with
    | |- match ?a with _ => _ end = _ -> _ => destruct a as [r | e0]
    end; [discriminate |].
    destruct (is_request_exception e0) eqn:He; [discriminate |].
    intros H. now inversion H; subst.
Qed.

Lemma split_without_separator (sep s : string) :
  Text.contains sep s = false -> Text.split sep s = [s].
Proof.
  unfold Text.contains, Text.split. simpl.
  now destruct (Text.cut sep s) as [[a b] |].
Qed.

(** X10: a run that cannot read the total from the [Link] header ends
    there, whatever its fuel: the exception is raised, nothing is sent and
    nothing is stored. So it is when the header is absent and when it holds a
    single relation, as for stars that fit on one page. *)
Theorem X10_no_total_no_run
    (fuel : nat) (w : world) (username : string) (st : run_state) :
  (forall e,
     (link <- link_header w username ;; parse_total link) = Raise e ->
     fetch_and_process_user_stars fuel w username st = Some (st, Raise e)) /\
  (link_header w username = Return None ->
   fetch_and_process_user_stars fuel w username st
   = Some (st, Raise (mk_exn AttributeError
                        "'NoneType' object has no attribute 'split'"))) /\
  (forall l,
     link_header w username = Return (Some l) ->
     Text.contains "," l = false ->
     fetch_and_process_user_stars fuel w username st
     = Some (st, Raise (mk_exn IndexError "list index out of range"))).
Proof.
  unfold fetch_and_process_user_stars. split; [| split].
  - intros e He. now rewrite He.
  - intros Hl. now rewrite Hl.
  - intros l Hl Hno. rewrite Hl. simpl.
    now rewrite (split_without_separator _ _ Hno).
Qed.

(** A relation between the state before and the state after that every
    step of a run respects is respected by the run. *)
Section RunInvariant.

Variable w : world.
Variable username : string.
Variable R : run_state -> run_state -> Prop.

Hypothesis R_refl : forall st, R st st.
Hypothesis R_trans : forall a b c, R a b -> R b c -> R a c.
Hypothesis R_progress :
  forall st n k total, R st (emit (Sent (Progress n k total)) st).
Hypothesis R_readme : forall st n, R st (emit (ReadmeFetched n) st).
Hypothesis R_done : forall st n id, R st (emit (StoreDone n id) st).
Hypothesis R_store :
  forall st info,
    readme_truthy (readme info) = true ->
    R st {| db := fst (store_repository w username info (db st));
            trace := trace st |}.

Lemma process_repo_respects (total : Z) (repo : starred_repo)
    (st st' : run_state) (processed : list repo_info)
    (r : result (list repo_info)) :
  process_repo w username total repo st processed = (st', r) -> R st st'.
Proof.
  unfold process_repo.
  set (st1 := emit (Sent (Progress (sr_full_name repo)
                            (List.length processed) total)) st).
  assert (H1 : R st st1) by apply R_progress.
  destruct (fetch_readme w (sr_full_name repo)) as [rc | e].
  2: { intros H. inversion H; subst. exact H1. }
  set (st2 := emit (ReadmeFetched (sr_full_name repo)) st1).
  assert (H2 : R st st2) by (apply (R_trans _ st1); [exact H1 | apply R_readme]).
  destruct (readme_truthy rc) eqn:Ht.
  2: { intros H. inversion H; subst. exact H2. }
  pose proof (R_store st2 (make_info repo rc) Ht) as H3.
  destruct (store_repository w username (make_info repo rc) (db st2))
    as [d' [id | e]]; simpl in H3; intros H; inversion H; subst.
  - apply (R_trans _ st2); [exact H2 |].
    apply (R_trans _ {| db := d'; trace := trace st2 |}); [exact H3 |].
    apply R_done.
  - apply (R_trans _ st2); [exact H2 | exact H3].
Qed.

Lemma process_page_respects (total : Z) (items : list starred_repo) :
  forall st st' processed r,
    process_page w username total items st processed = (st', r) -> R st st'.
Proof.
  induction items as [| repo rest IH]; intros st st' processed r; simpl.
  - intros H. inversion H; subst. apply R_refl.
  - destruct (process_repo w username total repo st processed)
      as [st1 [processed1 | e]] eqn:Hrepo.
    + intros H. apply (R_trans _ st1).
      * exact (process_repo_respects _ _ _ _ _ _ Hrepo).
      * exact (IH _ _ _ _ H).
    + intros H. inversion H; subst.
      exact (process_repo_respects _ _ _ _ _ _ Hrepo).
Qed.

Lemma walk_pages_respects (total : Z) (fuel : nat) :
  forall page st st' processed r,
    walk_pages fuel w username total page st processed = Some (st', r) ->
    R st st'.
Proof.
  induction fuel as [| fuel IH]; intros page st st' processed r;
    cbn [walk_pages]; [discriminate |].
  destruct (star_list w username page per_page) as [response | e].
  2: { intros H. inversion H; subst. apply R_refl. }
  destruct (page_items response) as [| repo items].
  { intros H. inversion H; subst. apply R_refl. }
  destruct (process_page w username total (repo :: items) st processed)
    as [st1 [processed1 | e]] eqn:Hpage.
  - pose proof (process_page_respects _ _ _ _ _ _ Hpage) as H1.
    destruct (page_has_next response).
    + intros H. apply (R_trans _ st1); [exact H1 | exact (IH _ _ _ _ _ H)].
    + intros H. inversion H; subst. exact H1.
  - intros H. inversion H; subst.
    exact (process_page_respects _ _ _ _ _ _ Hpage).
Qed.

(** A run that raises has gone through respected steps only; a run that
    returns has done so and then sent the terminal event. *)
Lemma run_respects (fuel : nat) (st st' : run_state) (r : result aggregate) :
  fetch_and_process_user_stars fuel w username st = Some (st', r) ->
  exists st1,
    R st st1 /\
    (if returns r then st' = emit (Sent Complete) st1 else st' = st1).
Proof.
  unfold fetch_and_process_user_stars.
  destruct (link <- link_header w username ;; parse_total link)
    as [total | e].
  2: { intros H. injection H as <- <-. exists st. split; [apply R_refl |].
       reflexivity. }
  destruct (walk_pages fuel w username total 1 st [])
    as [[st1 [processed | e]] |] eqn:Hwalk; [| | discriminate];
    intros H; injection H as <- <-; exists st1;
    (split; [exact (walk_pages_respects _ _ _ _ _ _ _ Hwalk) | reflexivity]).
Qed.

End RunInvariant.

Lemma grown_by_refl (u : string) (d : database) : grown_by u d d.
Proof. exists []. split; [now rewrite app_nil_r | constructor]. Qed.

Lemma grown_by_trans (u : string) (a b c : database) :
  grown_by u a b -> grown_by u b c -> grown_by u a c.
Proof.
  intros (x & Hx & Fx) (y & Hy & Fy). exists (x ++ y)%list. split.
  - now rewrite Hy, Hx, app_assoc.
  - apply Forall_app. now split.
Qed.

Lemma store_grows (w : world) (u : string) (info : repo_info) (d : database) :
  readme_truthy (readme info) = true ->
  grown_by u d (fst (store_repository w u info d)).
Proof.
  intros Ht.
  destruct (store_cases w u info d)
    as [(e1 & Hst & _) | [(r & _ & Hst) | (Hsel & Hst)]]; rewrite Hst; simpl;
    try apply grown_by_refl.
  eexists. split; [reflexivity |]. constructor; [| constructor].
  simpl. now split.
Qed.



(** X11: whatever happens during a run, and whether it returns or raises,
    the table it leaves is the table it found followed by rows it added, each
    stored for the user of the run with a README that is not empty. No row is
    changed or removed, and no item is stored without README text. *)
Theorem X11_run_only_adds_rows_with_readme
    (fuel : nat) (w : world) (username : string) (st st' : run_state)
    (r : result aggregate)
    (Hrun : fetch_and_process_user_stars fuel w username st = Some (st', r)) :
  grown_by username (db st) (db st').
Proof.
  destruct (run_respects w username
              (fun a b => grown_by username (db a) (db b))
              (fun a => grown_by_refl username (db a))
              (fun a b c => grown_by_trans username (db a) (db b) (db c))
              (fun a n k total => grown_by_refl username (db a))
              (fun a n => grown_by_refl username (db a))
              (fun a n id => grown_by_refl username (db a))
              (fun a info Ht => store_grows w username info (db a) Ht)
              fuel st st' r Hrun)
    as (st1 & Hgrown & Hend).
  destruct (returns r); subst st'; exact Hgrown.
Qed.

Lemma X11_run_only_adds_rows_with_readme_witness :
  grown_by "u" (db fresh) (db after_two_stars).
Proof.
  apply (X11_run_only_adds_rows_with_readme 3 two_stars "u" fresh
           after_two_stars (Return two_stars_result)).
  vm_compute. reflexivity.
Defined.

(** X12: whatever happens during a run, and whether it returns or raises,
    a table with at most one row per qualified name is left with at most one
    row per qualified name. *)
Theorem X12_run_keeps_names_unique
    (fuel : nat) (w : world) (username : string) (st st' : run_state)
    (r : result aggregate)
    (Hrun : fetch_and_process_user_stars fuel w username st = Some (st', r))
    (Huniq : unique_names (db st)) :
  unique_names (db st').
Proof.
  destruct (run_respects w username
              (fun a b => unique_names (db a) -> unique_names (db b))
              (fun a H => H)
              (fun a b c Hab Hbc H => Hbc (Hab H))
              (fun a n k total H => H)
              (fun a n H => H)
              (fun a n id H => H)
              (fun a info _ H =>
                 store_keeps_unique_names w username info (db a) H)
              fuel st st' r Hrun)
    as (st1 & Hkeep & Hend).
  destruct (returns r); subst st'; simpl; tauto.
Qed.

Lemma X12_run_keeps_names_unique_witness :
  unique_names (db after_two_stars).
Proof.
  apply (X12_run_keeps_names_unique 3 two_stars "u" fresh after_two_stars
           (Return two_stars_result)).
  - vm_compute. reflexivity.
  - constructor.
Defined.

Lemma emit_keeps_incomplete (e : effect) (st : run_state) :
  e <> Sent Complete ->
  ~ In (Sent Complete) (trace st) ->
  ~ In (Sent Complete) (trace (emit e st)).
Proof.
  intros He Hst. simpl. rewrite in_app_iff. simpl.
  intros [H | [H | []]]; [tauto | congruence].
Qed.



(** X13: the terminal event is the mark of a run that returns. Starting from
    a trace without it, a run that raises leaves a trace without it, and a
    run that returns leaves a trace that ends with it and holds it nowhere
    else. *)
Theorem X13_complete_marks_success
    (fuel : nat) (w : world) (username : string) (st st' : run_state)
    (r : result aggregate)
    (Hrun : fetch_and_process_user_stars fuel w username st = Some (st', r))
    (Hnone : ~ In (Sent Complete) (trace st)) :
  if returns r
  then exists before,
         trace st' = (before ++ [Sent Complete])%list /\
         ~ In (Sent Complete) before
  else ~ In (Sent Complete) (trace st').
Proof.
  destruct (run_respects w username
              (fun a b => ~ In (Sent Complete) (trace a) ->
                          ~ In (Sent Complete) (trace b))
              (fun a H => H)
              (fun a b c Hab Hbc H => Hbc (Hab H))
              (fun a n k total =>
                 emit_keeps_incomplete (Sent (Progress n k total)) a
                   ltac:(discriminate))
              (fun a n =>
                 emit_keeps_incomplete (ReadmeFetched n) a ltac:(discriminate))
              (fun a n id =>
                 emit_keeps_incomplete (StoreDone n id) a ltac:(discriminate))
              (fun a info _ H => H)
              fuel st st' r Hrun)
    as (st1 & Hkeep & Hend).
  destruct (returns r); subst st'.
  - exists (trace st1). split; [reflexivity | tauto].
  - tauto.
Qed.

Lemma X13_complete_marks_success_witness :
  exists before,
    trace after_two_stars = (before ++ [Sent Complete])%list /\
    ~ In (Sent Complete) before.
Proof.
  apply (X13_complete_marks_success 3 two_stars "u" fresh after_two_stars
           (Return two_stars_result)).
  - vm_compute. reflexivity.
  - simpl. tauto.
Defined.

Lemma process_repo_db (w : world) (u : string) (total : Z)
    (repo : starred_repo) (st st' : run_state)
    (processed processed' : list repo_info) :
  process_repo w u total repo st processed = (st', Return processed') ->
  exists info,
    processed' = (processed ++ [info])%list /\
    db st' = store_infos w u [info] (db st).
Proof.
  unfold process_repo.
  destruct (fetch_readme w (sr_full_name repo)) as [rc | e]; [| discriminate].
  destruct (readme_truthy rc) eqn:Ht.
  - destruct (store_repository w u (make_info repo rc) _)
      as [d' [id | e]] eqn:Hst; [| discriminate].
    intros H. injection H as <- <-. exists (make_info repo rc).
    split; [reflexivity |]. simpl. rewrite Ht. simpl in Hst. now rewrite Hst.
  - intros H. injection H as <- <-. exists (make_info repo rc).
    split; [reflexivity |]. simpl. now rewrite Ht.
Qed.

Lemma store_infos_app (w : world) (u : string) (l1 l2 : list repo_info) :
  forall d, store_infos w u (l1 ++ l2) d = store_infos w u l2 (store_infos w u l1 d).
Proof. induction l1 as [| i l1 IH]; intros d; simpl; [reflexivity | apply IH]. Qed.

Lemma process_page_db (w : world) (u : string) (total : Z)
    (items : list starred_repo) :
  forall st st' processed processed',
    process_page w u total items st processed = (st', Return processed') ->
    exists infos,
      processed' = (processed ++ infos)%list /\
      db st' = store_infos w u infos (db st).
Proof.
  induction items as [| repo rest IH]; intros st st' processed processed';
    cbn [process_page].
  - intros H. injection H as <- <-. exists []. now rewrite app_nil_r.
  - destruct (process_repo w u total repo st processed)
      as [st1 [processed1 | e]] eqn:Hrepo; [| discriminate].
    intros H. destruct (process_repo_db _ _ _ _ _ _ _ _ Hrepo) as (i & -> & Hd1).
    destruct (IH _ _ _ _ H) as (infos & -> & Hd).
    exists (i :: infos). split; [now rewrite <- app_assoc |].
    rewrite Hd, Hd1. reflexivity.
Qed.

Lemma walk_pages_db (w : world) (u : string) (total : Z) (fuel : nat) :
  forall page st st' processed processed',
    walk_pages fuel w u total page st processed = Some (st', Return processed') ->
    exists infos,
      processed' = (processed ++ infos)%list /\
      db st' = store_infos w u infos (db st).
Proof.
  induction fuel as [| fuel IH]; intros page st st' processed processed';
    cbn [walk_pages]; [discriminate |].
  destruct (star_list w u page per_page) as [response | e]; [| discriminate].
  destruct (page_items response) as [| repo items].
  { intros H. injection H as <- <-. exists []. now rewrite app_nil_r. }
  destruct (process_page w u total (repo :: items) st processed)
    as [st1 [processed1 | e]] eqn:Hpage; [| discriminate].
  destruct (process_page_db _ _ _ _ _ _ _ _ Hpage) as (l1 & -> & Hd1).
  destruct (page_has_next response).
  - intros H. destruct (IH _ _ _ _ _ H) as (l2 & -> & Hd2).
    exists (l1 ++ l2)%list. split; [now rewrite app_assoc |].
    now rewrite store_infos_app, <- Hd1.
  - intros H. injection H as <- <-. now exists l1.
Qed.

(** The table a returning run leaves is the table after the store calls for
    the items of its list, in order. *)
Lemma run_db (w : world) (u : string) (fuel : nat) (st st' : run_state)
    (agg : aggregate) :
  fetch_and_process_user_stars fuel w u st = Some (st', Return agg) ->
  db st' = store_infos w u (repositories agg) (db st).
Proof.
  unfold fetch_and_process_user_stars.
  destruct (link <- link_header w u ;; parse_total link) as [total | e];
    [| discriminate].
  destruct (walk_pages fuel w u total 1 st [])
    as [[st1 [processed | e]] |] eqn:Hwalk; try discriminate.
  intros H. injection H as <- <-.
  destruct (walk_pages_db _ _ _ _ _ _ _ _ _ Hwalk) as (infos & -> & Hd).
  simpl. exact Hd.
Qed.

Lemma store_keeps_names (w : world) (u : string) (info : repo_info)
    (d : database) (n : string) :
  In n (map row_full_name (repositories_table d)) ->
  In n (map row_full_name
          (repositories_table (fst (store_repository w u info d)))).
Proof.
  intros Hin.
  destruct (store_cases w u info d)
    as [(e1 & Hst & _) | [(r & _ & Hst) | (Hsel & Hst)]]; rewrite Hst; simpl;
    try exact Hin.
  rewrite map_app, in_app_iff. now left.
Qed.

Lemma store_infos_keeps_names (w : world) (u : string) (infos : list repo_info)
    (n : string) :
  forall d,
    In n (map row_full_name (repositories_table d)) ->
    In n (map row_full_name (repositories_table (store_infos w u infos d))).
Proof.
  induction infos as [| i rest IH]; intros d Hin; simpl; [exact Hin |].
  apply IH. destruct (readme_truthy (readme i)); [| exact Hin].
  now apply store_keeps_names.
Qed.

Lemma store_adds_name (w : world) (u : string) (info : repo_info)
    (d : database) :
  store_healthy w ->
  In (full_name info)
    (map row_full_name
       (repositories_table (fst (store_repository w u info d)))).
Proof.
  intros Hw.
  destruct (select_by_full_name (full_name info) d) as [r |] eqn:Hsel.
  - rewrite (store_existing w Hw u info d r Hsel). simpl.
    unfold select_by_full_name in Hsel. apply find_some in Hsel as [Hin Heq].
    apply String.eqb_eq in Heq. rewrite <- Heq. now apply in_map.
  - rewrite (store_new w Hw u info d Hsel). simpl.
    rewrite map_app, in_app_iff. right. now left.
Qed.

Lemma store_infos_has (w : world) (u : string) (infos : list repo_info)
    (info : repo_info) :
  store_healthy w ->
  readme_truthy (readme info) = true ->
  forall d,
    In info infos ->
    In (full_name info)
      (map row_full_name (repositories_table (store_infos w u infos d))).
Proof.
  intros Hw Ht. induction infos as [| i rest IH]; intros d Hin; [destruct Hin |].
  simpl. destruct Hin as [-> | Hin]; [| now apply IH].
  rewrite Ht. apply store_infos_keeps_names. now apply store_adds_name.
Qed.

Lemma store_infos_fixed (w : world) (u : string) (infos : list repo_info)
    (d : database) :
  (forall info, In info infos -> readme_truthy (readme info) = true ->
     In (full_name info) (map row_full_name (repositories_table d))) ->
  store_infos w u infos d = d.
Proof.
  induction infos as [| i rest IH]; intros Hall; simpl; [reflexivity |].
  assert (Hhead :
    (if readme_truthy (readme i)
     then fst (store_repository w u i d) else d) = d).
  { destruct (readme_truthy (readme i)) eqn:Ht; [| reflexivity].
    apply store_of_named.
    apply Hall; [now left | exact Ht]. }
  rewrite Hhead. apply IH. intros info Hin. apply Hall. now right.
Qed.

(** X14: ingesting the same user twice stores nothing the second time. When
    nothing disturbs the runs, the second run returns the value of the first
    and leaves the table exactly as the first run left it. *)
Theorem X14_second_run_stores_nothing
    (w : world) (username : string) (pages : list (list starred_repo))
    (total : Z) (fuel : nat) (st : run_state)
    (Hrun : undisturbed w username pages total)
    (Hfuel : (List.length pages < fuel)%nat) :
  exists st1 st2 agg,
    fetch_and_process_user_stars fuel w username st = Some (st1, Return agg) /\
    fetch_and_process_user_stars fuel w username st1 = Some (st2, Return agg) /\
    db st2 = db st1.
Proof.
  destruct (run_undisturbed w username pages total Hrun fuel st Hfuel)
    as (st1 & tr1 & Hfirst & _).
  destruct (run_undisturbed w username pages total Hrun fuel st1 Hfuel)
    as (st2 & tr2 & Hsecond & _).
  exists st1, st2. eexists. split; [exact Hfirst |]. split; [exact Hsecond |].
  rewrite (run_db _ _ _ _ _ _ Hsecond), (run_db _ _ _ _ _ _ Hfirst). simpl.
  apply store_infos_fixed. intros info Hin Ht.
  apply store_infos_has; [exact (und_store _ _ _ _ Hrun) | exact Ht | exact Hin].
Qed.

Lemma X14_second_run_stores_nothing_witness :
  exists st1 st2 agg,
    fetch_and_process_user_stars 3 two_stars "u" fresh = Some (st1, Return agg) /\
    fetch_and_process_user_stars 3 two_stars "u" st1 = Some (st2, Return agg) /\
    db st2 = db st1.
Proof.
  apply (X14_second_run_stores_nothing two_stars "u" two_pages 2 3 fresh).
  - exact two_stars_undisturbed.
  - simpl. lia.
Defined.

(** ** retrieval.py *)

Lemma split1_second_present (sep s : string) :
  Text.contains sep s = true ->
  exists b, Text.index (Text.split1 sep s) 1 = Return b.
Proof.
  unfold Text.contains, Text.split1.
  destruct (Text.cut sep s) as [[a b] |]; [| discriminate].
  intros _. now exists b.
Qed.

Lemma parse_entry_present (t : string) :
  has_markers t = true -> exists parts, parse_entry t = Return parts.
Proof.
  unfold has_markers, parse_entry. intros H.
  apply andb_true_iff in H as [H Hc]. apply andb_true_iff in H as [Hn Hu].
  destruct (split1_second_present _ _ Hn) as [a Ha]. rewrite Ha. simpl.
  destruct (split1_first "url:" a) as [b Hb]. rewrite Hb. simpl.
  destruct (split1_second_present _ _ Hu) as [c Hc']. rewrite Hc'. simpl.
  destruct (split1_first "content:" c) as [d Hd]. rewrite Hd. simpl.
  destruct (split1_second_present _ _ Hc) as [e He]. rewrite He. simpl.
  eexists. reflexivity.
Qed.

Lemma parse_entry_returns_with_markers (t : string) :
  returns (parse_entry t) = has_markers t.
Proof.
  destruct (has_markers t) eqn:Hm.
  - destruct (parse_entry_present t Hm) as [parts ->]. reflexivity.
  - assert (Hmiss : missing_marker t).
    { unfold has_markers, missing_marker in *.
      destruct (Text.contains "name:" t); [| now left].
      destruct (Text.contains "url:" t); [| right; now left].
      destruct (Text.contains "content:" t); [discriminate | right; now right]. }
    destruct (parse_entry_missing t Hmiss) as [e ->]. reflexivity.
Qed.

Lemma lines_of_count (repos : list (string * spec_float)) :
  List.length (lines_of repos)
  = List.length (filter has_markers (map fst repos)).
Proof.
  induction repos as [| [t s] rest IH]; simpl; [reflexivity |].
  rewrite <- parse_entry_returns_with_markers.
  destruct (parse_entry t); simpl; now rewrite IH.
Qed.

Lemma warnings_of_filter (repos : list (string * spec_float)) :
  warnings_of repos
  = map malformed (filter (fun t => negb (has_markers t)) (map fst repos)).
Proof.
  induction repos as [| [t s] rest IH]; simpl; [reflexivity |].
  rewrite <- parse_entry_returns_with_markers.
  destruct (parse_entry t); simpl; now rewrite IH.
Qed.

(** X15: [format_repo_context] never raises. Its text is the header, one line
    for each entry in whose combined text the three markers occur, and the
    note, also when no entry is left; it logs one warning for each of the
    other entries, in order. Only the presence of the markers is tested, not
    their order. *)
Theorem X15_context_is_total
    (repos : list (string * spec_float)) (query : string) :
  exists lines,
    format_repo_context repos query
    = Return (Text.join Text.newline ((header query :: lines) ++ [note])%list,
              map malformed
                (filter (fun t => negb (has_markers t)) (map fst repos))) /\
    List.length lines = List.length (filter has_markers (map fst repos)).
Proof.
  exists (lines_of repos). rewrite format_repo_context_total.
  rewrite warnings_of_filter. split; [reflexivity | apply lines_of_count].
Qed.

Example markers_out_of_order_are_accepted :
  format_repo_context [("url: a name: b content: c", Float.decimal 5 1)] "q"
  = Return (Text.join Text.newline
              [header "q"; "[b content: c](a name: b) - c *Relevance: 50.0%*";
               note],
            []).
Proof. vm_compute. reflexivity. Qed.

Lemma search_without_fault (w : world) (query : string) (limit : Z) :
  search_fault w = None ->
  search_for_repos w query limit = Return (similarity w query limit).
Proof.
  unfold search_fault, search_for_repos.
  destruct (db_fault w OpConnect); [discriminate |].
  now destruct (db_fault w OpSearch).
Qed.

Lemma search_with_fault (w : world) (query : string) (limit : Z) (e : exn) :
  search_fault w = Some e -> search_for_repos w query limit = Raise e.
Proof.
  unfold search_fault, search_for_repos.
  destruct (db_fault w OpConnect); [congruence |].
  destruct (db_fault w OpSearch); congruence.
Qed.

(** What [generate_response] does once the search has answered and a
    provider is built. *)
Lemma generate_response_with (w : world) (query : string) (p : provider)
    (format_only : bool) :
  search_fault w = None ->
  initialize_ai_provider w = Return p ->
  generate_response w query format_only
  = if format_only
    then Return (TextValue (rendered (similarity w query default_limit) query))
    else response <-
           chat_completion w p
             (prompts (rendered (similarity w query default_limit) query))
             1000 (Float.decimal 1 1) ;;
         Return (ChatValue response).
Proof.
  intros Hs Hp. unfold generate_response.
  rewrite (search_without_fault _ _ _ Hs). simpl. rewrite Hp. simpl.
  rewrite format_repo_context_total. reflexivity.
Qed.

(** X16: a request for the formatted list only still needs a provider: once
    the search has answered, [generate_response] raises the error of the
    provider configuration in both modes, and with a provider built the
    format-only answer is the rendered document of the five nearest rows,
    whatever the chat back ends would say. *)
Theorem X16_format_only_needs_a_provider (w : world) (query : string) :
  (forall e format_only,
     search_fault w = None ->
     initialize_ai_provider w = Raise e ->
     generate_response w query format_only = Raise e) /\
  (forall p,
     search_fault w = None ->
     initialize_ai_provider w = Return p ->
     generate_response w query true
     = Return (TextValue (rendered (similarity w query 5) query))).
Proof.
  split.
  - intros e fo Hs Hp. unfold generate_response.
    rewrite (search_without_fault _ _ _ Hs). simpl. now rewrite Hp.
  - intros p Hs Hp. now rewrite (generate_response_with w query p true Hs Hp).
Qed.

Example format_only_with_unknown_provider :
  generate_response misconfigured "timescale" true
  = Raise (mk_exn ValueError "Unsupported AI provider: gemini").
Proof. vm_compute. reflexivity. Qed.

(** X17: [generate_response] adds nothing to an error and nothing to an
    answer. An error of the search is raised as it is, in both modes and
    before the provider is looked at; without "format only" the outcome is
    the outcome of the provider's chat completion on the system prompt and
    the user prompt that embeds the rendered document, with 1000 tokens and
    temperature 0.1: its response object, or its exception. *)
Theorem X17_generate_response_passes_outcomes (w : world) (query : string) :
  (forall e format_only,
     search_fault w = Some e ->
     generate_response w query format_only = Raise e) /\
  (forall p,
     search_fault w = None ->
     initialize_ai_provider w = Return p ->
     (forall r,
        chat_completion w p (prompts (rendered (similarity w query 5) query))
          1000 (Float.decimal 1 1) = Return r ->
        generate_response w query false = Return (ChatValue r)) /\
     (forall e,
        chat_completion w p (prompts (rendered (similarity w query 5) query))
          1000 (Float.decimal 1 1) = Raise e ->
        generate_response w query false = Raise e)).
Proof.
  split.
  - intros e fo Hs. unfold generate_response.
    now rewrite (search_with_fault _ _ _ _ Hs).
  - intros p Hs Hp.
    rewrite (generate_response_with w query p false Hs Hp).
    split; intros x Hx; unfold default_limit; now rewrite Hx.
Qed.

(** ** server.py *)



Lemma accepting_process_page (w : world) (u : string) (total : Z)
    (items : list starred_repo) :
  forall st processed,
    Sink.process_page Sink.accepting w u total items st processed
    = process_page w u total items st processed.
Proof.
  induction items as [| repo rest IH]; intros st processed;
    cbn [Sink.process_page process_page]; [reflexivity |].
  unfold Sink.process_repo, Sink.accepting.
  destruct (process_repo w u total repo st processed) as [st1 [p1 | e]];
    [apply IH | reflexivity].
Qed.

Lemma accepting_walk_pages (w : world) (u : string) (total : Z) (fuel : nat) :
  forall page st processed,
    Sink.walk_pages Sink.accepting fuel w u total page st processed
    = walk_pages fuel w u total page st processed.
Proof.
  induction fuel as [| fuel IH]; intros page st processed;
    cbn [Sink.walk_pages walk_pages]; [reflexivity |].
  destruct (star_list w u page per_page) as [response | e]; [| reflexivity].
  destruct (page_items response) as [| repo items]; [reflexivity |].
  rewrite accepting_process_page.
  destruct (process_page w u total (repo :: items) st processed)
    as [st1 [p1 | e]]; [| reflexivity].
  destruct (page_has_next response); [apply IH | reflexivity].
Qed.

(** With a sink that takes every event the run is the traced run. *)
Lemma accepting_sink_agrees (fuel : nat) (w : world) (u : string)
    (st : run_state) :
  Sink.fetch_and_process_user_stars Sink.accepting fuel w u st
  = fetch_and_process_user_stars fuel w u st.
Proof.
  unfold Sink.fetch_and_process_user_stars, fetch_and_process_user_stars.
  destruct (link <- link_header w u ;; parse_total link) as [total | e];
    [| reflexivity].
  rewrite accepting_walk_pages.
  now destruct (walk_pages fuel w u total 1 st []) as [[st1 [p1 | e]] |].
Qed.

(** A run whose sink cannot be awaited raises before it fetches or stores
    anything. *)
Lemma not_awaitable_run (fuel : nat) (w : world) (u : string) (st : run_state) :
  exists e,
    Sink.fetch_and_process_user_stars Sink.not_awaitable (S fuel) w u st
    = Some (st, Raise e) /\
    (forall total page,
       (link <- link_header w u ;; parse_total link) = Return total ->
       star_list w u 1 per_page = Return page ->
       e = mk_exn TypeError
             "object NoneType can't be used in 'await' expression").
Proof.
  unfold Sink.fetch_and_process_user_stars.
  destruct (link <- link_header w u ;; parse_total link) as [total | e].
  2: { exists e. split; [reflexivity | discriminate]. }
  cbn [Sink.walk_pages].
  destruct (star_list w u 1 per_page) as [response | e].
  2: { exists e. split; [reflexivity | discriminate]. }
  destruct (page_items response) as [| repo items];
    eexists; (split; [reflexivity | reflexivity]).
Qed.

(** X19: [POST /ingest] never succeeds and never stores anything. It gives
    the run the sink [lambda x: None], whose result cannot be awaited: with a
    user name the answer is always 500 and the table is left as it was, and
    once the total and the first page are read the exception is the
    [TypeError] of the first [await]; without a user name the answer is
    400. *)
Theorem X19_ingest_endpoint_always_fails
    (fuel : nat) (w : world) (username : string) (d : database) :
  (username = EmptyString ->
   Server.ingest_stars (S fuel) w username d
   = Some (d, Server.HTTPException 400 "No GitHub username provided")) /\
  (username <> EmptyString ->
   exists e,
     Server.ingest_stars (S fuel) w username d
     = Some (d, Server.HTTPException 500 (exn_text e)) /\
     (forall total page,
        (link <- link_header w username ;; parse_total link) = Return total ->
        star_list w username 1 per_page = Return page ->
        e = mk_exn TypeError
              "object NoneType can't be used in 'await' expression")).
Proof.
  split.
  - intros ->. reflexivity.
  - intros Hne.
    destruct (not_awaitable_run fuel w username {| db := d; trace := [] |})
      as (e & Hrun & Hwhy).
    exists e. split; [| exact Hwhy]. unfold Server.ingest_stars.
    destruct username; [congruence |]. now rewrite Hrun.
Qed.

Example ingest_endpoint_on_two_stars :
  Server.ingest_stars 3 two_stars "u" empty_db
  = Some (empty_db,
          Server.HTTPException 500
            "object NoneType can't be used in 'await' expression").
Proof. vm_compute. reflexivity. Qed.




(** ** The total in the [Link] header *)

Lemma clash_drop (sep : string) :
  forall u s, clash sep u = true -> Text.drop_prefix sep (u ++ s) = None.
Proof.
  induction sep as [| a sep IH]; intros u s; [discriminate |].
  destruct u as [| b u]; [discriminate |]. simpl.
  destruct (Ascii.eqb a b); [apply IH | reflexivity].
Qed.

Lemma cut_past (sep pre : string) :
  clear sep pre = true ->
  forall s,
    Text.cut sep (pre ++ s) =
    match Text.cut sep s with
    | Some (a, b) => Some (pre ++ a, b)
    | None => None
    end.
Proof.
  induction pre as [| c pre IH]; intros Hclear s.
  - simpl. now destruct (Text.cut sep s) as [[a b] |].
  - cbn [clear] in Hclear. apply andb_true_iff in Hclear as [Hhere Hlater].
    change (String c pre ++ s) with (String c (pre ++ s)).
    rewrite cut_miss by exact (clash_drop sep (String c pre) s Hhere).
    rewrite (IH Hlater). now destruct (Text.cut sep s) as [[a b] |].
Qed.

Lemma cut_through_digits (a : ascii) (sep' ds : string) :
  digit a = None ->
  all_digits ds = true ->
  forall s,
    Text.cut (String a sep') (ds ++ s) =
    match Text.cut (String a sep') s with
    | Some (x, y) => Some (ds ++ x, y)
    | None => None
    end.
Proof.
  intros Ha. induction ds as [| c ds IH]; intros Hds s.
  - simpl. now destruct (Text.cut (String a sep') s) as [[x y] |].
  - cbn [all_digits] in Hds. apply andb_true_iff in Hds as [Hc Hds].
    change (String c ds ++ s) with (String c (ds ++ s)).
    rewrite cut_miss.
    + rewrite (IH Hds). now destruct (Text.cut (String a sep') s) as [[x y] |].
    + simpl. destruct (Ascii.eqb_spec a c) as [-> | _]; [| reflexivity].
      rewrite Ha in Hc. discriminate.
Qed.

Lemma split_in_two (sep s a b : string) :
  s <> EmptyString ->
  Text.cut sep s = Some (a, b) ->
  Text.cut sep b = None ->
  Text.split sep s = [a; b].
Proof.
  intros Hs Ha Hb. unfold Text.split.
  destruct s as [| c s]; [congruence |].
  cbn [String.length Text.split_rounds]. now rewrite Ha, Hb.
Qed.

Lemma split_head (sep s a b : string) :
  Text.cut sep s = Some (a, b) ->
  Text.index (Text.split sep s) 0 = Return a.
Proof.
  intros Ha. unfold Text.split. cbn [Text.split_rounds]. now rewrite Ha.
Qed.

Lemma append_empty (s : string) : s ++ EmptyString = s.
Proof. induction s as [| c s IH]; simpl; [reflexivity | now rewrite IH]. Qed.

Lemma app_cons_nonempty (a : string) (c : ascii) (b : string) :
  a ++ String c b <> EmptyString.
Proof. destruct a; discriminate. Qed.

Lemma link_to_parts (last : string) :
  link_to last
  = first_relation ++ String "," (before_page ++ "&page=" ++ last ++ after_page).
Proof. reflexivity. Qed.

(** The chain of splits reads the digits after the last [&page=]. *)
Lemma total_of_header (ds : string) :
  all_digits ds = true ->
  parse_total (Some (link_to ds)) = py_int ds.
Proof.
  intros Hds. unfold parse_total. rewrite link_to_parts.
  assert (Hrest : Text.cut "," (before_page ++ "&page=" ++ ds ++ after_page)
                  = None).
  { change (before_page ++ "&page=" ++ ds ++ after_page)
      with ((before_page ++ "&page=") ++ ds ++ after_page).
    rewrite cut_past by (vm_compute; reflexivity).
    rewrite cut_through_digits by (reflexivity || exact Hds).
    reflexivity. }
  assert (Hfirst :
    Text.cut ","
      (first_relation
         ++ String "," (before_page ++ "&page=" ++ ds ++ after_page))
    = Some (first_relation, before_page ++ "&page=" ++ ds ++ after_page)).
  { rewrite cut_past by (vm_compute; reflexivity).
    rewrite (cut_hit "," _ (before_page ++ "&page=" ++ ds ++ after_page))
      by reflexivity.
    now rewrite append_empty. }
  rewrite (split_in_two _ _ _ _ (app_cons_nonempty _ _ _) Hfirst Hrest).
  unfold Text.index at 1. cbn [nth_error bind].
  assert (Hpage :
    Text.cut "&page=" (before_page ++ "&page=" ++ ds ++ after_page)
    = Some (before_page, ds ++ after_page)).
  { rewrite cut_past by (vm_compute; reflexivity).
    rewrite (cut_hit "&page=" _ (ds ++ after_page))
      by (apply (drop_prefix_itself "&page=")).
    now rewrite append_empty. }
  assert (Hno_page : Text.cut "&page=" (ds ++ after_page) = None).
  { rewrite cut_through_digits by (reflexivity || exact Hds). reflexivity. }
  assert (Hsplit :
    Text.split "&page=" (before_page ++ "&page=" ++ ds ++ after_page)
    = [before_page; ds ++ after_page]).
  { apply split_in_two; [| exact Hpage | exact Hno_page].
    exact (app_cons_nonempty before_page "&" ("page=" ++ ds ++ after_page)). }
  rewrite Hsplit.
  unfold Text.index at 1. cbn [nth_error bind].
  assert (Hend :
    Text.cut ">" (ds ++ after_page)
    = Some (ds, String ";" (" rel=" ++ Text.dquote ++ "last" ++ Text.dquote))).
  { rewrite cut_through_digits by (reflexivity || exact Hds).
    cbn. now rewrite append_empty. }
  rewrite (split_head _ _ _ _ Hend). reflexivity.
Qed.

Lemma value_of_acc (d : Decimal.uint) :
  forall acc, Zpos (Pos.of_uint_acc d acc) = numeral_value d (Zpos acc).
Proof.
  induction d as [| d IH | d IH | d IH | d IH | d IH | d IH | d IH | d IH
                  | d IH | d IH];
    intros acc; cbn [Pos.of_uint_acc numeral_value];
    [reflexivity | rewrite IH; f_equal; lia ..].
Qed.

Lemma value_of_uint (d : Decimal.uint) :
  Z.of_uint d = numeral_value d 0.
Proof.
  unfold Z.of_uint.
  induction d as [| d IH | d IH | d IH | d IH | d IH | d IH | d IH | d IH
                  | d IH | d IH];
    cbn [Pos.of_uint numeral_value Z.of_N];
    [reflexivity | exact IH | apply value_of_acc ..].
Qed.

Lemma digits_of_numeral (d : Decimal.uint) :
  forall acc,
    digits (NilEmpty.string_of_uint d) acc true = Some (numeral_value d acc).
Proof.
  induction d as [| d IH | d IH | d IH | d IH | d IH | d IH | d IH | d IH
                  | d IH | d IH];
    intros acc; [reflexivity | apply IH ..].
Qed.

Lemma digits_of_numeral_start (d : Decimal.uint) (acc : Z) :
  digits (NilZero.string_of_uint d) acc false
  = Some (match d with
          | Decimal.Nil => acc * 10 + 0
          | _ => numeral_value d acc
          end).
Proof.
  destruct d; try reflexivity;
    cbn [NilZero.string_of_uint NilEmpty.string_of_uint digits numeral_value];
    apply digits_of_numeral.
Qed.

Lemma numeral_is_spacefree (d : Decimal.uint) :
  spacefree (NilZero.string_of_uint d) = true.
Proof.
  assert (H : spacefree (NilEmpty.string_of_uint d) = true)
    by (induction d; simpl; auto).
  now destruct d.
Qed.

Lemma numeral_is_digits (d : Decimal.uint) :
  all_digits (NilZero.string_of_uint d) = true.
Proof.
  assert (H : all_digits (NilEmpty.string_of_uint d) = true)
    by (induction d; simpl; auto).
  now destruct d.
Qed.

Lemma spacefree_lstrip (s : string) : spacefree s = true -> Text.lstrip s = s.
Proof.
  destruct s as [| c s]; [reflexivity |]. simpl.
  now destruct (Text.isspace c).
Qed.

Lemma spacefree_rstrip (s : string) : spacefree s = true -> Text.rstrip s = s.
Proof.
  induction s as [| c s IH]; [reflexivity |]. simpl. intros H.
  apply andb_true_iff in H as [Hc Hs]. rewrite (IH Hs).
  destruct s; [| reflexivity]. now destruct (Text.isspace c).
Qed.

Lemma spacefree_strip (s : string) : spacefree s = true -> Text.strip s = s.
Proof.
  intros H. unfold Text.strip.
  now rewrite (spacefree_lstrip s H), (spacefree_rstrip s H).
Qed.

(** [int(str(z))] is [z]. *)
Lemma py_int_of_str (z : Z) : py_int (Text.str_of_Z z) = Return z.
Proof.
  unfold Text.str_of_Z.
  rewrite <- (DecimalZ.of_to z) at 2. unfold py_int.
  destruct (Z.to_int z) as [d | d]; cbn [NilZero.string_of_int Z.of_int].
  - rewrite spacefree_strip by apply numeral_is_spacefree.
    assert (Hd : digits (NilZero.string_of_uint d) 0 false = Some (Z.of_uint d)).
    { rewrite digits_of_numeral_start, value_of_uint. now destruct d. }
    destruct d; cbn in Hd |- *; now rewrite ?Hd.
  - rewrite spacefree_strip
      by (change (spacefree (String "-" (NilZero.string_of_uint d)))
            with (spacefree (NilZero.string_of_uint d));
          apply numeral_is_spacefree).
    assert (Hd : digits (NilZero.string_of_uint d) 0 false = Some (Z.of_uint d)).
    { rewrite digits_of_numeral_start, value_of_uint. now destruct d. }
    now rewrite Hd.
Qed.

(** X21: the chain of splits that reads the total undoes the header of the
    star list: for every page count [n], from the [Link] header whose
    relation [next] points to page 2 and whose relation [last] points to
    page [n], written in decimal, the total read is [n]. *)
Theorem X21_total_of_link_header (n : Z) (Hn : 0 <= n) :
  parse_total (Some (link_to (Text.str_of_Z n))) = Return n.
Proof.
  rewrite total_of_header; [apply py_int_of_str |].
  unfold Text.str_of_Z.
  destruct n as [| p | p]; [reflexivity | | lia].
  apply (numeral_is_digits (Pos.to_uint p)).
Qed.

Lemma X21_total_of_link_header_witness :
  parse_total (Some (link_to (Text.str_of_Z 1234))) = Return 1234.
Proof. apply (X21_total_of_link_header 1234). lia. Defined.

(** ** An item that fails *)

Lemma process_page_app (w : world) (u : string) (total : Z)
    (l1 l2 : list starred_repo) :
  forall st processed,
    process_page w u total (l1 ++ l2) st processed
    = match process_page w u total l1 st processed with
      | (st', Return processed') => process_page w u total l2 st' processed'
      | (st', Raise e) => (st', Raise e)
      end.
Proof.
  induction l1 as [| repo l1 IH]; intros st processed; [reflexivity |].
  cbn [app process_page].
  destruct (process_repo w u total repo st processed) as [st1 [p1 | e]];
    [apply IH | reflexivity].
Qed.

(** X22: an item whose README fetch raises ends the loop over its page at
    once. The state is the one left by the items before it, the rows they
    stored included, plus the progress event of the item: its README is not
    recorded as fetched, nothing is stored for it, the items after it leave
    no effect, and the exception is raised as it is. *)
Theorem X22_failing_readme_stops_the_page
    (w : world) (u : string) (total : Z)
    (before after : list starred_repo) (bad : starred_repo)
    (st st1 : run_state) (processed processed1 : list repo_info) (e : exn)
    (Hbefore : process_page w u total before st processed
               = (st1, Return processed1))
    (Hbad : fetch_readme w (sr_full_name bad) = Raise e) :
  process_page w u total (before ++ bad :: after) st processed
  = (emit (Sent (Progress (sr_full_name bad) (List.length processed1) total))
       st1,
     Raise e) /\
  db (emit (Sent (Progress (sr_full_name bad) (List.length processed1) total))
        st1)
  = db st1.
Proof.
  split; [| reflexivity].
  rewrite process_page_app, Hbefore. cbn [process_page].
  unfold process_repo. now rewrite Hbad.
Qed.

Lemma X22_failing_readme_stops_the_page_witness :
  process_page broken_readme "u" 3
    ([star "ada" "engine"] ++ star "bob" "notes" :: [star "cat" "toys"])
    fresh []
  = (emit (Sent (Progress (sr_full_name (star "bob" "notes"))
                   (List.length [make_info (star "ada" "engine") (Some "hello")])
                   3))
       after_engine,
     Raise (Codec.padding_error 0)) /\
  db (emit (Sent (Progress (sr_full_name (star "bob" "notes"))
                    (List.length [make_info (star "ada" "engine") (Some "hello")])
                    3))
        after_engine)
  = db after_engine.
Proof.
  apply (X22_failing_readme_stops_the_page broken_readme "u" 3
           [star "ada" "engine"] [star "cat" "toys"] (star "bob" "notes")
           fresh after_engine []
           [make_info (star "ada" "engine") (Some "hello")]
           (Codec.padding_error 0)).
  - vm_compute. reflexivity.
  - vm_compute. reflexivity.
Defined.

Example undecodable_readme_stops_the_page :
  process_page broken_readme "u" 3
    [star "ada" "engine"; star "bob" "notes"; star "cat" "toys"] fresh []
  = ({| db := db after_engine;
        trace := (trace after_engine ++ [Sent (Progress "bob/notes" 1 3)])%list |},
     Raise (mk_exn BinasciiError
              "Invalid base64-encoded string: number of data characters (1) cannot be 1 more than a multiple of 4")).
Proof. vm_compute. reflexivity. Qed.

Example store_failure_stops_the_page :
  process_page readme_but_no_insert "u" 2
    [star "ada" "engine"; star "bob" "notes"] fresh []
  = ({| db := empty_db;
        trace := [Sent (Progress "ada/engine" 0 2); ReadmeFetched "ada/engine"] |},
     Raise (store_error server_closed)).
Proof. vm_compute. reflexivity. Qed.
